(** * discord_emoji: a shallow embedding of [src/discord_emoji.py]

    The development follows the source top-down: Python strings and
    [clean_name_for_fs], JSON records as the Discord API returns them, the
    filesystem namespace the program reads and writes, the job builder
    [get_downloads_from_guild_info], the per-job executor [download_job],
    the catalogue enumerators and [main]. *)

From Stdlib Require Import ZArith NArith List String Ascii Bool Lia.
From Stdlib Require Import DecimalString SpecFloat.
From Stdlib Require DecimalPos DecimalZ.
From stdpp Require Import base option list gmap.

Open Scope N_scope.
Open Scope list_scope.
Set Warnings "-register-all".

(** ** Python strings *)

(** A Python [str] is a sequence of Unicode code points. *)
Definition char := N.
Definition str := list char.
Definition bytes := list Byte.byte.

(** ASCII literals of the source, as code points. *)
Definition py (s : string) : str :=
  map N_of_ascii (list_ascii_of_string s).
Arguments py _ : simpl never.

(** [str.isspace] on one code point: the whitespace set of CPython's
    Unicode database, which is also what [str.strip()] removes. *)
Definition isspace (c : char) : bool :=
  ((9 <=? c) && (c <=? 13)) || ((28 <=? c) && (c <=? 32))
  || (c =? 133) || (c =? 160) || (c =? 5760)
  || ((8192 <=? c) && (c <=? 8202))
  || (c =? 8232) || (c =? 8233) || (c =? 8239) || (c =? 8287)
  || (c =? 12288).

Definition ascii_isalnum (c : char) : bool :=
  ((48 <=? c) && (c <=? 57)) || ((65 <=? c) && (c <=? 90))
  || ((97 <=? c) && (c <=? 122)).

Fixpoint drop_while {A} (p : A -> bool) (l : list A) : list A :=
  match l with
  | [] => []
  | x :: l' => if p x then drop_while p l' else l
  end.

Definition lstrip (s : str) : str := drop_while isspace s.
Definition rstrip (s : str) : str := rev (drop_while isspace (rev s)).

(** [s.strip()] with no argument. *)
Definition strip (s : str) : str := rstrip (lstrip s).

(** [str(n)] for an integer. *)
Definition py_decimal (z : Z) : str :=
  py (NilZero.string_of_int (Z.to_int z)).

(** [str.isalnum] outside ASCII is a lookup in the Unicode character
    database, which is not part of the repository: it is a parameter. *)
Class UnicodeDB := { unicode_isalnum : char -> bool }.

Section Sanitize.
Context `{UnicodeDB}.

Definition isalnum (c : char) : bool :=
  if c <? 128 then ascii_isalnum c else unicode_isalnum c.

(** [c in " _-"] for a one-character string [c]. *)
Definition in_space_underscore_hyphen (c : char) : bool :=
  (c =? 32) || (c =? 95) || (c =? 45).

(** The generator condition [c.isalnum() or c in " _-"]. *)
Definition keep (c : char) : bool :=
  isalnum c || in_space_underscore_hyphen c.

(** [def clean_name_for_fs(name: str) -> str] *)
Definition clean_name_for_fs (name : str) : str :=
  strip (List.filter keep name).

End Sanitize.

(** ** JSON values, as [Response.json()] returns them *)

Inductive json :=
  | JNull
  | JBool (b : bool)
  | JInt (z : Z)
  | JFloat (f : spec_float)
  | JStr (s : str)
  | JArr (l : list json)
  | JObj (kvs : list (str * json)).

(** A Python [dict] keeps its keys in insertion order; a key occurs once
    in a parsed object, and lookup returns the first binding. *)
Fixpoint dict_lookup (k : str) (kvs : list (str * json)) : option json :=
  match kvs with
  | [] => None
  | (k', v) :: rest => if bool_decide (k = k') then Some v else dict_lookup k rest
  end.

Definition has_key (k : str) (kvs : list (str * json)) : bool :=
  match dict_lookup k kvs with Some _ => true | None => false end.

(** [d1 | d2]: the keys of [d1] keep their place and take the value of
    [d2] where [d2] has the key; the keys only [d2] has follow, in the
    order of [d2]. *)
Definition dict_or (d1 d2 : list (str * json)) : list (str * json) :=
  map (fun kv => (fst kv, default (snd kv) (dict_lookup (fst kv) d2))) d1
  ++ List.filter (fun kv => negb (has_key (fst kv) d1)) d2.

(** Truth value of a JSON value in a Python condition. *)
Definition truthy (v : json) : bool :=
  match v with
  | JNull => false
  | JBool b => b
  | JInt z => negb (z =? 0)%Z
  | JFloat f => match f with S754_zero _ => false | _ => true end
  | JStr s => match s with [] => false | _ => true end
  | JArr l => match l with [] => false | _ => true end
  | JObj kvs => match kvs with [] => false | _ => true end
  end.

(** ** Exceptions and the world the program acts on *)

Inductive oserror :=
  | FileExistsError
  | FileNotFoundError
  | NotADirectoryError
  | IsADirectoryError.

Inductive exn :=
  | KeyError (k : str)
  | TypeError
  | OutsideAnnotation
  | JSONDecodeError
  | TransportError
  | HTTPStatusError (status : N)
  | OSError (e : oserror)
  | UsageError (message : str).

Inductive res (A : Type) :=
  | Ok (a : A)
  | Raise (e : exn).
Arguments Ok {A} a.
Arguments Raise {A} e.

(** A [pathlib.Path] relative to the working directory: its parts. *)
Definition path := list str.

(** What stands at a path: a regular file or a directory. Symbolic links,
    which [is_file], [mkdir] and the writes follow, are not in the trees
    of this development. *)
Inductive node :=
  | File (content : bytes)
  | Dir.

(** [httpx.Response]: the status code, the payload and what [.json()]
    makes of the payload ([None] when it does not parse). *)
Record response := {
  status_code : N;
  content : bytes;
  json_body : option json;
}.

(** What [Client.get] does: a response, or a transport-level exception. *)
Inductive fetched :=
  | Responded (r : response)
  | Failed.

Inductive level := INFO | WARNING.

Record World := {
  fs : gmap path node;
  api_requests : list str;
  dl_requests : list str;
  log_records : list (level * str);
}.

(** The collaborators outside the repository: [str()] of a float, list or
    dict inside an f-string, [json.dumps], the text encoding of
    [Path.write_text], and the two HTTP clients. A client's answer may
    depend on the requests it has served so far. *)
Class Services := {
  py_repr : json -> str;
  json_dumps : forall (sort_keys : bool) (indent : option nat), json -> str;
  encode_text : str -> bytes;
  discord_api_get : list str -> str -> fetched;
  dl_get : list str -> str -> fetched;
}.

(** The state-and-exception monad of the program's statements. *)
Definition M (A : Type) : Type := World -> World * res A.

Definition ret {A} (a : A) : M A := fun w => (w, Ok a).
Definition raise {A} (e : exn) : M A := fun w => (w, Raise e).
Definition bind {A B} (m : M A) (k : A -> M B) : M B :=
  fun w => match m w with
           | (w', Ok a) => k a w'
           | (w', Raise e) => (w', Raise e)
           end.
Definition lift {A} (r : res A) : M A := fun w => (w, r).

Notation "'let*' x := m 'in' k" := (bind m (fun x => k))
  (at level 10, x pattern, m at level 100, k at level 200).
Notation "m ;; k" := (bind m (fun _ => k))
  (at level 100, k at level 200, right associativity).

(** ** The filesystem namespace *)

(** The working directory itself always is a directory. *)
Definition node_at (t : gmap path node) (p : path) : option node :=
  match p with
  | [] => Some Dir
  | _ => t !! p
  end.

(** [Path.is_file()] *)
Definition is_file (t : gmap path node) (p : path) : bool :=
  match node_at t p with
  | Some (File _) => true
  | _ => false
  end.

(** [Path.is_dir()] *)
Definition is_dir (t : gmap path node) (p : path) : bool :=
  match node_at t p with
  | Some Dir => true
  | _ => false
  end.

(** [Path.parent]; the parent of the working directory is itself. *)
Definition parent (p : path) : path := removelast p.

(** [p / segment] for a segment without a separator, which is all the
    program ever joins: an empty segment and ["."] leave [p] as it is. *)
Definition path_div (p : path) (segment : str) : path :=
  if bool_decide (segment = []) || bool_decide (segment = py ".")
  then p
  else p ++ [segment].

(** [Path.mkdir(parents=True, exist_ok=True)], walking the parts of the
    path below [base]: a part that is missing is created, a directory is
    entered, and a file in the way raises ([FileExistsError] when it is the
    path itself, [NotADirectoryError] when it is an ancestor). *)
Fixpoint mkdir_below (base : path) (parts : list str) (t : gmap path node)
  : res (gmap path node) :=
  match parts with
  | [] => Ok t
  | c :: rest =>
      let q := base ++ [c] in
      match t !! q with
      | Some (File _) =>
          Raise (OSError (match rest with
                          | [] => FileExistsError
                          | _ => NotADirectoryError
                          end))
      | Some Dir => mkdir_below q rest t
      | None => mkdir_below q rest (<[q := Dir]> t)
      end
  end.

Definition mkdir_parents (p : path) (t : gmap path node) : res (gmap path node) :=
  mkdir_below [] p t.

(** [open(p, "wb").write(data)]: the parent has to be a directory and [p]
    must not be one; the file is created or truncated. These are the
    errors the shape of the tree decides; what else the operating system
    may refuse (permissions, the length of a name, a full disk) is not in
    the trees, and the statements below that need a write to go through
    take its outcome as given. *)
Definition write_file (p : path) (data : bytes) (t : gmap path node)
  : res (gmap path node) :=
  match node_at t (parent p) with
  | None => Raise (OSError FileNotFoundError)
  | Some (File _) => Raise (OSError NotADirectoryError)
  | Some Dir =>
      match node_at t p with
      | Some Dir => Raise (OSError IsADirectoryError)
      | _ => Ok (<[p := File data]> t)
      end
  end.

(** ** Statements that touch the world *)

Definition set_fs (t : gmap path node) (w : World) : World :=
  {| fs := t; api_requests := api_requests w;
     dl_requests := dl_requests w; log_records := log_records w |}.

Definition add_api_request (url : str) (w : World) : World :=
  {| fs := fs w; api_requests := api_requests w ++ [url];
     dl_requests := dl_requests w; log_records := log_records w |}.

Definition add_dl_request (url : str) (w : World) : World :=
  {| fs := fs w; api_requests := api_requests w;
     dl_requests := dl_requests w ++ [url]; log_records := log_records w |}.

Definition add_log (l : level) (message : str) (w : World) : World :=
  {| fs := fs w; api_requests := api_requests w;
     dl_requests := dl_requests w;
     log_records := log_records w ++ [(l, message)] |}.

(** A filesystem call that raises leaves the tree as it was. *)
Definition fs_update (f : gmap path node -> res (gmap path node)) : M unit :=
  fun w => match f (fs w) with
           | Ok t => (set_fs t w, Ok tt)
           | Raise e => (w, Raise e)
           end.

Definition mkdir (p : path) : M unit := fs_update (mkdir_parents p).
Definition write_bytes (p : path) (data : bytes) : M unit :=
  fs_update (write_file p data).

Definition log_warning (message : str) : M unit :=
  fun w => (add_log WARNING message w, Ok tt).
Definition log_info (message : str) : M unit :=
  fun w => (add_log INFO message w, Ok tt).

(** [Response.is_success] and [Response.raise_for_status()]. *)
Definition is_success (r : response) : bool :=
  (200 <=? status_code r) && (status_code r <=? 299).

Definition raise_for_status (r : response) : M unit :=
  if is_success r then ret tt else raise (HTTPStatusError (status_code r)).

(** [httpx.codes.NOT_FOUND] *)
Definition NOT_FOUND : N := 404.

(** [Response.json()] *)
Definition response_json (r : response) : M json :=
  match json_body r with
  | Some v => ret v
  | None => raise JSONDecodeError
  end.

(** [obj[key]] for a string key. *)
Definition py_getitem (obj : json) (key : str) : res json :=
  match obj with
  | JObj kvs =>
      match dict_lookup key kvs with
      | Some v => Ok v
      | None => Raise (KeyError key)
      end
  | _ => Raise TypeError
  end.

(** What a [for] loop iterates over: the items of a list, the keys of a
    dict, the characters of a string. *)
Definition py_iter (v : json) : res (list json) :=
  match v with
  | JArr l => Ok l
  | JObj kvs => Ok (map (fun kv => JStr (fst kv)) kvs)
  | JStr s => Ok (map (fun c => JStr [c]) s)
  | _ => Raise TypeError
  end.

(** A value passed where the source annotates [str]. [None], a boolean or
    a number is not iterable there; a list or a dict is outside the
    annotation, and the model stops. *)
Definition as_str (v : json) : res str :=
  match v with
  | JStr s => Ok s
  | JArr _ | JObj _ => Raise OutsideAnnotation
  | _ => Raise TypeError
  end.

(** ** Download jobs *)

(** [@dataclasses.dataclass(frozen=True) class DownloadJob] *)
Record DownloadJob := {
  description : str;
  source_url : str;
  dest_path : path;
}.

(** The property [DownloadJob.done]: [self.dest_path.is_file()]. *)
Definition done (job : DownloadJob) (t : gmap path node) : bool :=
  is_file t (dest_path job).

Definition gif_or_png (animated : json) : str :=
  if truthy animated then py "gif" else py "png".

Section Program.
Context `{unicode : UnicodeDB} `{services : Services}.

(** A replacement field [{v}] of an f-string. *)
Definition format_value (v : json) : str :=
  match v with
  | JStr s => s
  | JInt z => py_decimal z
  | JBool true => py "True"
  | JBool false => py "False"
  | JNull => py "None"
  | _ => py_repr v
  end.

(** [def get_emoji_url(emoji_id, animated=False)] *)
Definition get_emoji_url (emoji_id : json) (animated : json) : str :=
  let ext := gif_or_png animated in
  py "https://cdn.discordapp.com/emojis/" ++ format_value emoji_id
    ++ py "." ++ ext ++ py "?v=1".

(** [def get_sticker_url(sticker_id)] *)
Definition get_sticker_url (sticker_id : json) : str :=
  py "https://media.discordapp.net/stickers/" ++ format_value sticker_id
    ++ py ".png?size=1024".

(** One turn of [for emoji in guild.get("emojis", [])]. *)
Definition emoji_job (guild_name : json) (emoji_path : path) (emoji : json)
  : res DownloadJob :=
  match py_getitem emoji (py "animated") with
  | Raise e => Raise e
  | Ok animated =>
      let ext := gif_or_png animated in
      match py_getitem emoji (py "name") with
      | Raise e => Raise e
      | Ok name =>
          match py_getitem emoji (py "id") with
          | Raise e => Raise e
          | Ok emoji_id =>
              match as_str name with
              | Raise e => Raise e
              | Ok name_str =>
                  Ok {| description :=
                          format_value guild_name ++ py ":" ++ format_value name;
                        source_url := get_emoji_url emoji_id animated;
                        dest_path :=
                          path_div emoji_path
                            (clean_name_for_fs name_str ++ py "." ++ ext) |}
              end
          end
      end
  end.

(** One turn of [for sticker in guild.get("stickers", [])]. *)
Definition sticker_job (guild_name : json) (sticker_path : path) (sticker : json)
  : res DownloadJob :=
  match py_getitem sticker (py "name") with
  | Raise e => Raise e
  | Ok name =>
      match py_getitem sticker (py "id") with
      | Raise e => Raise e
      | Ok sticker_id =>
          match as_str name with
          | Raise e => Raise e
          | Ok name_str =>
              Ok {| description :=
                      format_value guild_name ++ py ":" ++ format_value name;
                    source_url := get_sticker_url sticker_id;
                    dest_path :=
                      path_div sticker_path
                        (clean_name_for_fs name_str ++ py ".png") |}
          end
      end
  end.

(** The jobs a loop yields until a turn raises. *)
Fixpoint yield_each {A} (f : A -> res DownloadJob) (items : list A)
  : res (list DownloadJob) :=
  match items with
  | [] => Ok []
  | x :: rest =>
      match f x with
      | Raise e => Raise e
      | Ok job =>
          match yield_each f rest with
          | Raise e => Raise e
          | Ok jobs => Ok (job :: jobs)
          end
      end
  end.

(** [guild.get(key, [])] followed by the iteration over it. *)
Definition get_items (guild : json) (key : str) : res (list json) :=
  match guild with
  | JObj kvs => py_iter (default (JArr []) (dict_lookup key kvs))
  | _ => Raise TypeError
  end.

(** The two loops of [get_downloads_from_guild_info]: the jobs they
    yield, or the exception of the first turn that raises. *)
Definition yield_jobs (guild_path : path) (guild guild_name : json)
  : res (list DownloadJob) :=
  let emoji_path := path_div guild_path (py "emojis") in
  let sticker_path := path_div guild_path (py "stickers") in
  match get_items guild (py "emojis") with
  | Raise e => Raise e
  | Ok emojis =>
      match yield_each (emoji_job guild_name emoji_path) emojis with
      | Raise e => Raise e
      | Ok emoji_jobs =>
          match get_items guild (py "stickers") with
          | Raise e => Raise e
          | Ok stickers =>
              match yield_each (sticker_job guild_name sticker_path) stickers with
              | Raise e => Raise e
              | Ok sticker_jobs => Ok (emoji_jobs ++ sticker_jobs)
              end
          end
      end
  end.

(** [def get_downloads_from_guild_info(root_path, guild)], consumed to
    its end as [jobs.extend] does. *)
Definition get_downloads_from_guild_info (root_path : path) (guild : json)
  : M (list DownloadJob) :=
  let* guild_name := lift (py_getitem guild (py "name")) in
  let* name_str := lift (as_str guild_name) in
  let guild_path := path_div root_path (clean_name_for_fs name_str) in
  mkdir guild_path ;;
  write_bytes (path_div guild_path (py "info.json"))
    (encode_text (json_dumps true (Some 2%nat) guild)) ;;
  lift (yield_jobs guild_path guild guild_name).

(** [dl_client.get(url)] *)
Definition dl_client_get (url : str) : M response :=
  fun w =>
    match dl_get (dl_requests w) url with
    | Responded r => (add_dl_request url w, Ok r)
    | Failed => (add_dl_request url w, Raise TransportError)
    end.

(** [discord_api_client.get(url)] *)
Definition discord_api_client_get (url : str) : M response :=
  fun w =>
    match discord_api_get (api_requests w) url with
    | Responded r => (add_api_request url w, Ok r)
    | Failed => (add_api_request url w, Raise TransportError)
    end.

(** [def download_job(job, *, dl_client)] *)
Definition download_job (job : DownloadJob) : M (DownloadJob * bool) :=
  fun w =>
    if done job (fs w) then ret (job, true) w
    else
      (mkdir (parent (dest_path job)) ;;
       let* resp := dl_client_get (source_url job) in
       if status_code resp =? NOT_FOUND then
         log_warning (py "Not found: " ++ description job) ;;
         ret (job, false)
       else
         raise_for_status resp ;;
         write_bytes (dest_path job) (content resp) ;;
         ret (job, true)) w.

(** What follows the fetch in [download_job]. *)
Definition after_fetch (job : DownloadJob) (resp : response)
  : M (DownloadJob * bool) :=
  if status_code resp =? NOT_FOUND then
    log_warning (py "Not found: " ++ description job) ;;
    ret (job, false)
  else
    raise_for_status resp ;;
    write_bytes (dest_path job) (content resp) ;;
    ret (job, true).

(** [guild | data] *)
Definition py_or (a b : json) : res json :=
  match a, b with
  | JObj d1, JObj d2 => Ok (JObj (dict_or d1 d2))
  | _, _ => Raise TypeError
  end.

(** A generator function of the source: the statements before its loop,
    then one resumption per turn of the loop, each run when the consumer
    asks for the next record. *)
Definition generator := M (list (M json)).

(** The body of the loop of [get_my_guilds_info]. *)
Definition my_guild_info (guild : json) : M json :=
  let* guild_id := lift (py_getitem guild (py "id")) in
  let* guild_resp :=
    discord_api_client_get
      (py "https://discord.com/api/v10/guilds/" ++ format_value guild_id) in
  raise_for_status guild_resp ;;
  let* data := response_json guild_resp in
  lift (py_or guild data).

(** [def get_my_guilds_info(discord_api_client, task)] *)
Definition get_my_guilds_info : generator :=
  let* guilds_resp :=
    discord_api_client_get (py "https://discord.com/api/v10/users/@me/guilds") in
  raise_for_status guilds_resp ;;
  let* guilds := response_json guilds_resp in
  let* items := lift (py_iter guilds) in
  ret (map my_guild_info items).

(** The body of the loop of [get_guild_infos_by_ids]. *)
Definition guild_info_by_id (guild_id : Z) : M json :=
  let* guild_resp :=
    discord_api_client_get
      (py "https://discord.com/api/v10/guilds/" ++ py_decimal guild_id) in
  raise_for_status guild_resp ;;
  response_json guild_resp.

(** [def get_guild_infos_by_ids(discord_api_client, guild_ids, task)] *)
Definition get_guild_infos_by_ids (guild_ids : list Z) : generator :=
  ret (map guild_info_by_id guild_ids).

(** The body of the loop of [get_guild_infos_by_source_emoji_ids]. *)
Definition guild_info_by_source_emoji_id (emoji_id : Z) : M json :=
  let* guild_resp :=
    discord_api_client_get
      (py "https://discord.com/api/v9/emojis/" ++ py_decimal emoji_id
         ++ py "/source") in
  raise_for_status guild_resp ;;
  let* data := response_json guild_resp in
  lift (py_getitem data (py "guild")).

(** [def get_guild_infos_by_source_emoji_ids(discord_api_client,
    source_emoji_ids, task)] *)
Definition get_guild_infos_by_source_emoji_ids (source_emoji_ids : list Z)
  : generator :=
  ret (map guild_info_by_source_emoji_id source_emoji_ids).

(** [for guild in guilds: jobs.extend(get_downloads_from_guild_info(
    root_path, guild))] *)
Fixpoint collect_jobs (root_path : path) (guilds : list (M json))
    (jobs : list DownloadJob) : M (list DownloadJob) :=
  match guilds with
  | [] => ret jobs
  | next_guild :: rest =>
      let* guild := next_guild in
      let* found := get_downloads_from_guild_info root_path guild in
      collect_jobs root_path rest (jobs ++ found)
  end.

(** [[job for job in jobs if not job.done]] *)
Definition remaining_jobs (jobs : list DownloadJob) (t : gmap path node)
  : list DownloadJob :=
  List.filter (fun job => negb (done job t)) jobs.

(** The loop over [pool.imap_unordered(bound_download_job, jobs)], one
    job at a time in the order of the list: an exception of a job ends
    the loop. This is the schedule of a pool with one worker; the
    interleaving of the three workers and the order in which their
    results arrive are not modelled. *)
Fixpoint run_jobs (jobs : list DownloadJob) : M (list (DownloadJob * bool)) :=
  match jobs with
  | [] => ret []
  | job :: rest =>
      let* result := download_job job in
      let* results := run_jobs rest in
      ret (result :: results)
  end.

(** The parsed command line: [--guild-id] and [--source-emoji-id] take
    one or more integers, [--my-guilds] is a flag. *)
Record Args := {
  guild_ids : option (list Z);
  source_emoji_ids : option (list Z);
  my_guilds : bool;
}.

(** Truth value of an option value of [argparse]: [None] and the empty
    list are false. *)
Definition given (ids : option (list Z)) : bool :=
  match ids with
  | Some (_ :: _) => true
  | _ => false
  end.

(** The [if]/[elif] chain of [main] that picks the enumerator;
    [ap.error] in its [else]. *)
Definition select_guilds (args : Args) : res generator :=
  if my_guilds args then Ok get_my_guilds_info
  else if given (guild_ids args) then
    Ok (get_guild_infos_by_ids (default [] (guild_ids args)))
  else if given (source_emoji_ids args) then
    Ok (get_guild_infos_by_source_emoji_ids (default [] (source_emoji_ids args)))
  else Raise (UsageError (py "Don't know where to get emojis from")).

Definition token_given (token_from_env : option str) : bool :=
  match token_from_env with
  | Some (_ :: _) => true
  | _ => false
  end.

(** The end of [main], once the jobs are gathered: the two log lines,
    the filter between them, and the pool when a job is left. *)
Definition download_remaining (jobs : list DownloadJob) : M unit :=
  log_info (py_decimal (Z.of_nat (length jobs))
              ++ py " download jobs, seeing what remains to be done...") ;;
  let* jobs := (fun w => ret (remaining_jobs jobs (fs w)) w) in
  log_info (py_decimal (Z.of_nat (length jobs)) ++ py " jobs to do.") ;;
  match jobs with
  | [] => ret tt
  | _ => run_jobs jobs ;; ret tt
  end.

(** [def main()] from line 155 on: from the arguments as [ap.parse_args()]
    has returned them and the value of [DISCORD_USER_TOKEN] in the
    environment. The parser's own usage errors (an unknown option, an id
    that is not an integer) come before and are not modelled. *)
Definition main (token_from_env : option str) (args : Args) : M unit :=
  if negb (token_given token_from_env) then
    raise (UsageError (py "DISCORD_USER_TOKEN is required"))
  else
    let root_path := [py "download"] in
    let* guilds_gen := lift (select_guilds args) in
    let* guilds := guilds_gen in
    let* jobs := collect_jobs root_path guilds [] in
    download_remaining jobs.

End Program.

(** ** Vocabulary of the statements below *)

(** A statement raises from a world. *)
Definition raises {A} (m : M A) (w : World) : Prop :=
  exists e, snd (m w) = Raise e.

(** A response that is neither a success nor "not found". *)
Definition fatal_status (r : response) : bool :=
  negb (is_success r) && negb (status_code r =? NOT_FOUND).

(** Every file of the first tree is a file of the second. *)
Definition files_persist (t t' : gmap path node) : Prop :=
  forall p, is_file t p = true -> is_file t' p = true.

(** A record with the fields the loops read. *)
Definition emoji_fields (emoji : json) (name : str) (animated : json) : Prop :=
  py_getitem emoji (py "animated") = Ok animated
  /\ py_getitem emoji (py "name") = Ok (JStr name)
  /\ exists emoji_id, py_getitem emoji (py "id") = Ok emoji_id.

Definition sticker_fields (sticker : json) (name : str) : Prop :=
  py_getitem sticker (py "name") = Ok (JStr name)
  /\ exists sticker_id, py_getitem sticker (py "id") = Ok sticker_id.

(** A result that is not the usage error of [ap.error]. *)
Definition no_usage_error {A} (r : res A) : Prop :=
  match r with
  | Raise (UsageError _) => False
  | _ => True
  end.

(** A statement whose every run relates the world before to the world
    after by [R], and which never ends in a usage error. *)
Definition respects (R : World -> World -> Prop) {A} (m : M A) : Prop :=
  forall w, R w (fst (m w)) /\ no_usage_error (snd (m w)).

(** The same of a generator and of each of its resumptions. *)
Definition respects_gen (R : World -> World -> Prop)
    (g : M (list (M json))) : Prop :=
  forall w,
    R w (fst (g w))
    /\ match snd (g w) with
       | Ok steps => Forall (respects R) steps
       | Raise e => no_usage_error (@Raise unit e)
       end.

(** Steps of the enumeration and building phase: files stay files and
    the download client is not used. *)
Definition build_step (w w' : World) : Prop :=
  files_persist (fs w) (fs w') /\ dl_requests w' = dl_requests w.

(** Steps of any phase: files stay files. *)
Definition any_step (w w' : World) : Prop :=
  files_persist (fs w) (fs w').

(** What the relation of a phase has to allow: no step, two steps in a
    row, a change of the tree that keeps the files, a request to the API,
    a log record. *)
Class Phase (R : World -> World -> Prop) : Prop := {
  phase_refl : forall w, R w w;
  phase_trans : forall w1 w2 w3, R w1 w2 -> R w2 w3 -> R w1 w3;
  phase_fs : forall w t, files_persist (fs w) t -> R w (set_fs t w);
  phase_api : forall w url, R w (add_api_request url w);
  phase_log : forall w l message, R w (add_log l message w);
}.

(** ** A small catalogue to run the program on *)

Definition latin_isalnum : UnicodeDB :=
  {| unicode_isalnum := fun c =>
       (192 <=? c) && (c <=? 591) && negb (c =? 215) && negb (c =? 247) |}.

Definition an_emoji (emoji_id name : string) (animated : bool) : json :=
  JObj [(py "id", JStr (py emoji_id)); (py "name", JStr (py name));
        (py "animated", JBool animated)].

Definition a_sticker (sticker_id name : string) : json :=
  JObj [(py "id", JStr (py sticker_id)); (py "name", JStr (py name))].

Definition guild_summary : list (str * json) :=
  [(py "id", JStr (py "42")); (py "name", JStr (py "Old name"));
   (py "owner", JBool true)].

Definition guild_detail : list (str * json) :=
  [(py "id", JStr (py "42")); (py "name", JStr (py "My Guild!"));
   (py "emojis",
     JArr [an_emoji "1" "party parrot" true; an_emoji "2" "foo/bar:baz" false]);
   (py "stickers", JArr [a_sticker "3" "wave"])].

Definition png_payload : bytes := [Byte.x89; Byte.x50; Byte.x4e; Byte.x47].

Definition a_response (status : N) (body : option json) : response :=
  {| status_code := status; content := png_payload; json_body := body |}.

Definition canned_api (history : list str) (url : str) : fetched :=
  if bool_decide (url = py "https://discord.com/api/v10/users/@me/guilds") then
    Responded (a_response 200 (Some (JArr [JObj guild_summary])))
  else if bool_decide (url = py "https://discord.com/api/v10/guilds/42") then
    Responded (a_response 200 (Some (JObj guild_detail)))
  else Responded (a_response 403 None).

Definition canned_cdn (history : list str) (url : str) : fetched :=
  if bool_decide (url = py "https://cdn.discordapp.com/emojis/2.png?v=1") then
    Responded (a_response 404 None)
  else if bool_decide (url = py "https://media.discordapp.net/stickers/5.png?size=1024") then
    Responded (a_response 500 None)
  else Responded (a_response 200 None).

Definition canned_services : Services :=
  {| py_repr := fun _ => py "...";
     json_dumps := fun _ _ _ => py "{}";
     encode_text := map (fun c => default Byte.x3f (Byte.of_N c));
     discord_api_get := canned_api;
     dl_get := canned_cdn |}.

Definition world_of (t : gmap path node) : World :=
  {| fs := t; api_requests := []; dl_requests := []; log_records := [] |}.

Definition emoji_dir : path := [py "download"; py "My Guild"; py "emojis"].

Definition parrot_job : DownloadJob :=
  {| description := py "My Guild!:party parrot";
     source_url := py "https://cdn.discordapp.com/emojis/1.gif?v=1";
     dest_path := emoji_dir ++ [py "party parrot.gif"] |}.

Definition foobarbaz_job : DownloadJob :=
  {| description := py "My Guild!:foo/bar:baz";
     source_url := py "https://cdn.discordapp.com/emojis/2.png?v=1";
     dest_path := emoji_dir ++ [py "foobarbaz.png"] |}.

Definition broken_job : DownloadJob :=
  {| description := py "My Guild!:broken";
     source_url := py "https://media.discordapp.net/stickers/5.png?size=1024";
     dest_path := [py "download"; py "My Guild"; py "stickers"; py "broken.png"] |}.

(** The tree after [mkdir -p download/My Guild/emojis]. *)
Definition emoji_dir_tree : gmap path node :=
  <[emoji_dir := Dir]>
    (<[[py "download"; py "My Guild"] := Dir]> (<[[py "download"] := Dir]> ∅)).

(** The same with the parrot downloaded, and with a directory in its place. *)
Definition parrot_file_tree : gmap path node :=
  <[dest_path parrot_job := File png_payload]> emoji_dir_tree.

Definition parrot_dir_tree : gmap path node :=
  <[dest_path parrot_job := Dir]> emoji_dir_tree.

Definition two_selectors : Args :=
  {| guild_ids := Some [42%Z]; source_emoji_ids := None; my_guilds := true |}.

Definition no_selector : Args :=
  {| guild_ids := None; source_emoji_ids := None; my_guilds := false |}.

Definition guild_dir_tree : gmap path node :=
  <[[py "download"; py "My Guild"] := Dir]> (<[[py "download"] := Dir]> ∅).

Definition sticker_dir_tree : gmap path node :=
  <[[py "download"; py "My Guild"; py "stickers"] := Dir]> guild_dir_tree.

Definition snapshot_path : path := [py "download"; py "My Guild"; py "info.json"].

(** A tree of an earlier run: the parrot is there, and a snapshot with
    other content. *)
Definition earlier_run_tree : gmap path node :=
  <[snapshot_path := File png_payload]> parrot_file_tree.

(** ** The specification's words for names *)

(** The characters the specification lets through: alphanumeric, space
    (32), underscore (95), hyphen (45). *)
Definition allowed_in_names `{UnicodeDB} (c : char) : bool :=
  isalnum c || (c =? 32) || (c =? 95) || (c =? 45).

(** An ASCII digit or letter, by its code point. *)
Definition ascii_letter_or_digit (c : char) : Prop :=
  48 <= c <= 57 \/ 65 <= c <= 90 \/ 97 <= c <= 122.

(** ** Vocabulary of the further properties *)

(** [None], a boolean or a number: a value a [for] loop cannot iterate. *)
Definition not_iterable (v : json) : bool :=
  match v with
  | JNull | JBool _ | JInt _ | JFloat _ => true
  | _ => false
  end.

(** The second tree is the first one outside the top-level directory
    [top] of the working directory. *)
Definition same_outside (top : str) (t t' : gmap path node) : Prop :=
  forall q, head q <> Some top -> node_at t' q = node_at t q.

(** A job whose file goes to a directory below [top]. *)
Definition job_below (top : str) (job : DownloadJob) : Prop :=
  head (parent (dest_path job)) = Some top.

(** A statement that leaves the tree as it is. *)
Definition keeps_tree {A} (m : M A) : Prop :=
  forall w, fs (fst (m w)) = fs w.

(** The file at [q], when the first tree has one with the content [data],
    is in the second tree with the same content. *)
Definition keeps_file (q : path) (data : bytes) (t t' : gmap path node) : Prop :=
  node_at t q = Some (File data) -> node_at t' q = Some (File data).

(** ** More of the small catalogue *)

Definition wave_job : DownloadJob :=
  {| description := py "My Guild!:wave";
     source_url := py "https://media.discordapp.net/stickers/3.png?size=1024";
     dest_path := [py "download"; py "My Guild"; py "stickers"; py "wave.png"] |}.

Definition canned_snapshot : bytes :=
  map (fun c => default Byte.x3f (Byte.of_N c)) (py "{}").

(** The tree once the builder has run on the guild of the catalogue. *)
Definition built_tree : gmap path node :=
  <[snapshot_path := File canned_snapshot]> guild_dir_tree.

Definition nameless_guild : json := JObj [(py "id", JStr (py "42"))].

Definition half_emoji_guild : list (str * json) :=
  [(py "name", JStr (py "My Guild!"));
   (py "emojis",
     JArr [JObj [(py "id", JStr (py "1")); (py "name", JStr (py "parrot"))]])].

Definition punctuation_guild : list (str * json) :=
  [(py "name", JStr (py "!!!"));
   (py "emojis", JArr [an_emoji "1" "party parrot" true])].

Definition download_tree : gmap path node := <[[py "download"] := Dir]> ∅.

Definition root_snapshot_tree : gmap path node :=
  <[[py "download"; py "info.json"] := File canned_snapshot]> download_tree.

(** A file where the directory of the guild has to be. *)
Definition blocked_tree : gmap path node :=
  <[[py "download"; py "My Guild"] := File png_payload]> download_tree.

(** The world after [run_jobs [foobarbaz_job; parrot_job]] from the empty
    one. *)
Definition after_two_jobs : World :=
  {| fs := parrot_file_tree;
     api_requests := [];
     dl_requests := [source_url foobarbaz_job; source_url parrot_job];
     log_records := [(WARNING, py "Not found: My Guild!:foo/bar:baz")] |}.

Definition two_guild_ids : Args :=
  {| guild_ids := Some [7%Z; 42%Z]; source_emoji_ids := None; my_guilds := false |}.

Definition notes_tree : gmap path node := <[[py "notes.txt"] := File png_payload]> ∅.

(** * Properties *)

(** ** Stripping and sanitizing *)

Section DropWhile.
Context {A : Type} (p : A -> bool).

Lemma drop_while_split (l : list A) :
  exists pre, l = pre ++ drop_while p l /\ Forall (fun x => p x = true) pre.
Proof.
  induction l as [|x l [pre [Heq Hpre]]]; simpl.
  - exists []. split; [reflexivity | constructor].
  - destruct (p x) eqn:Hx.
    + exists (x :: pre). split; [simpl; congruence | constructor; assumption].
    + exists []. split; [reflexivity | constructor].
Qed.

Lemma drop_while_head (l : list A) (x : A) :
  head (drop_while p l) = Some x -> p x = false.
Proof.
  induction l as [|y l IH]; simpl; [discriminate |].
  destruct (p y) eqn:Hy; [exact IH |].
  simpl. intros [= <-]. exact Hy.
Qed.

Lemma drop_while_fixed (l : list A) :
  (forall x, head l = Some x -> p x = false) -> drop_while p l = l.
Proof.
  destruct l as [|y l]; simpl; [reflexivity |].
  intros Hy. rewrite (Hy y eq_refl). reflexivity.
Qed.

Lemma drop_while_snoc (l : list A) (x : A) :
  p x = false -> exists l', drop_while p (l ++ [x]) = l' ++ [x].
Proof.
  intros Hx. induction l as [|y l IH]; simpl.
  - rewrite Hx. exists []. reflexivity.
  - destruct (p y); [exact IH |]. exists (y :: l). reflexivity.
Qed.
End DropWhile.

Lemma last_rev_head {A} (l : list A) : last (rev l) = head l.
Proof. destruct l as [|x l]; simpl; [reflexivity | apply last_snoc]. Qed.

Lemma head_rev_last {A} (l : list A) : head (rev l) = last l.
Proof. rewrite <- (rev_involutive l) at 2. symmetry. apply last_rev_head. Qed.

Lemma lstrip_split (s : str) :
  exists pre, s = pre ++ lstrip s /\ Forall (fun c => isspace c = true) pre.
Proof. apply drop_while_split. Qed.

Lemma rstrip_split (s : str) :
  exists suf, s = rstrip s ++ suf /\ Forall (fun c => isspace c = true) suf.
Proof.
  unfold rstrip. destruct (drop_while_split isspace (rev s)) as [pre [Heq Hpre]].
  exists (rev pre). split.
  - rewrite <- rev_app_distr, <- Heq, rev_involutive. reflexivity.
  - apply Forall_rev. exact Hpre.
Qed.

Lemma rstrip_last (s : str) (c : char) :
  last (rstrip s) = Some c -> isspace c = false.
Proof.
  unfold rstrip. rewrite last_rev_head. apply drop_while_head.
Qed.

Lemma rstrip_fixed (s : str) :
  (forall c, last s = Some c -> isspace c = false) -> rstrip s = s.
Proof.
  intros Hs. unfold rstrip. rewrite drop_while_fixed.
  - apply rev_involutive.
  - intros c Hc. apply Hs. rewrite <- head_rev_last. exact Hc.
Qed.

(** Stripping on the right leaves a first character (one that is not
    whitespace) in place. *)
Lemma rstrip_keeps_head (s : str) (c : char) :
  head s = Some c -> isspace c = false -> head (rstrip s) = Some c.
Proof.
  destruct s as [|c' s]; simpl; [discriminate |].
  intros [= ->] Hc. unfold rstrip. simpl rev.
  destruct (drop_while_snoc isspace (rev s) c Hc) as [l' ->].
  rewrite rev_app_distr. reflexivity.
Qed.

Lemma strip_split (s : str) :
  exists pre suf,
    s = pre ++ strip s ++ suf
    /\ Forall (fun c => isspace c = true) pre
    /\ Forall (fun c => isspace c = true) suf.
Proof.
  destruct (lstrip_split s) as [pre [Hs Hpre]].
  destruct (rstrip_split (lstrip s)) as [suf [Hl Hsuf]].
  exists pre, suf. unfold strip. rewrite <- Hl. auto.
Qed.

Lemma strip_last (s : str) (c : char) :
  last (strip s) = Some c -> isspace c = false.
Proof. apply rstrip_last. Qed.

Lemma strip_head (s : str) (c : char) :
  head (strip s) = Some c -> isspace c = false.
Proof.
  unfold strip. intros Hc.
  destruct (lstrip s) as [|d l] eqn:Hl.
  - discriminate Hc.
  - assert (Hd : isspace d = false).
    { apply (drop_while_head isspace s). unfold lstrip in Hl. rewrite Hl. reflexivity. }
    rewrite (rstrip_keeps_head (d :: l) d eq_refl Hd) in Hc.
    congruence.
Qed.

Lemma strip_idempotent (s : str) : strip (strip s) = strip s.
Proof.
  unfold strip at 1. unfold lstrip.
  rewrite (drop_while_fixed isspace (strip s)) by apply strip_head.
  apply rstrip_fixed, strip_last.
Qed.

Lemma filter_all_true {A} (p : A -> bool) (l : list A) :
  Forall (fun x => p x = true) l -> List.filter p l = l.
Proof.
  induction 1 as [|x l Hx _ IH]; simpl; [reflexivity |].
  rewrite Hx, IH. reflexivity.
Qed.

Lemma filter_Forall_true {A} (p : A -> bool) (l : list A) :
  Forall (fun x => p x = true) (List.filter p l).
Proof.
  induction l as [|x l IH]; simpl; [constructor |].
  destruct (p x) eqn:Hx; [constructor |]; assumption.
Qed.

Lemma filter_sublist {A} (p : A -> bool) (l : list A) :
  sublist (List.filter p l) l.
Proof.
  induction l as [|x l IH]; simpl; [constructor |].
  destruct (p x); [apply sublist_skip | apply sublist_cons]; exact IH.
Qed.

Section SanitizeFacts.
Context `{UnicodeDB}.

Lemma keep_allowed (c : char) :
  keep c = true <-> isalnum c = true \/ In c (py " _-").
Proof.
  unfold keep, in_space_underscore_hyphen.
  change (py " _-") with [32; 95; 45]. simpl.
  rewrite !orb_true_iff, !N.eqb_eq. intuition auto.
Qed.

(** The sanitized name is what stripping leaves of the kept characters:
    whitespace only is cut off, at the two ends. *)
Lemma clean_name_for_fs_split (name : str) :
  exists pre suf,
    List.filter keep name = pre ++ clean_name_for_fs name ++ suf
    /\ Forall (fun c => isspace c = true) pre
    /\ Forall (fun c => isspace c = true) suf.
Proof. apply strip_split. Qed.

Lemma clean_name_for_fs_kept (name : str) :
  Forall (fun c => keep c = true) (clean_name_for_fs name).
Proof.
  destruct (clean_name_for_fs_split name) as (pre & suf & Heq & _ & _).
  pose proof (filter_Forall_true keep name) as Hall.
  rewrite Heq in Hall.
  apply Forall_app in Hall as [_ Hall].
  apply Forall_app in Hall as [Hall _]. exact Hall.
Qed.

Lemma clean_name_for_fs_sublist (name : str) :
  sublist (clean_name_for_fs name) name.
Proof.
  destruct (clean_name_for_fs_split name) as (pre & suf & Heq & _ & _).
  transitivity (List.filter keep name); [| apply filter_sublist].
  rewrite Heq. apply sublist_inserts_l, sublist_inserts_r. reflexivity.
Qed.

Lemma keep_allowed_in_names (c : char) : keep c = allowed_in_names c.
Proof.
  unfold keep, allowed_in_names, in_space_underscore_hyphen.
  rewrite !orb_assoc. reflexivity.
Qed.

Lemma filter_keep_allowed (name : str) :
  List.filter keep name = List.filter allowed_in_names name.
Proof.
  induction name as [|c name IH]; simpl; [reflexivity |].
  rewrite keep_allowed_in_names, IH. reflexivity.
Qed.

Lemma ascii_letter_or_digit_isalnum (c : char) :
  ascii_letter_or_digit c -> isalnum c = true /\ isspace c = false.
Proof.
  unfold ascii_letter_or_digit, isalnum, ascii_isalnum, isspace. intros Hc.
  assert (Hascii : (c <? 128) = true) by (apply N.ltb_lt; lia).
  rewrite Hascii. split.
  - rewrite !orb_true_iff, !andb_true_iff, !N.leb_le. lia.
  - rewrite !orb_false_iff, !andb_false_iff, !N.leb_gt, !N.eqb_neq. lia.
Qed.

Lemma keep_ascii (c : char) :
  keep c = true -> c < 128 ->
  ascii_letter_or_digit c \/ c = 32 \/ c = 95 \/ c = 45.
Proof.
  unfold keep, isalnum, in_space_underscore_hyphen, ascii_isalnum,
    ascii_letter_or_digit.
  intros Hc Hascii. apply N.ltb_lt in Hascii. rewrite Hascii in Hc.
  rewrite !orb_true_iff, !andb_true_iff, !N.leb_le, !N.eqb_eq in Hc. lia.
Qed.

(** A kept character that is not whitespace is not cut off. *)
Lemma clean_name_for_fs_retains (name : str) (c : char) :
  In c name -> keep c = true -> isspace c = false -> In c (clean_name_for_fs name).
Proof.
  intros Hin Hkeep Hnospace.
  destruct (clean_name_for_fs_split name) as (pre & suf & Heq & Hpre & Hsuf).
  assert (Hfiltered : In c (List.filter keep name)) by (apply filter_In; auto).
  rewrite Heq in Hfiltered.
  apply in_app_or in Hfiltered as [Hc | Hc].
  { apply list_elem_of_In in Hc.
    rewrite (proj1 (Forall_forall _ _) Hpre c Hc) in Hnospace. discriminate. }
  apply in_app_or in Hc as [Hc | Hc]; [exact Hc |].
  apply list_elem_of_In in Hc.
  rewrite (proj1 (Forall_forall _ _) Hsuf c Hc) in Hnospace. discriminate.
Qed.

(** C6: for every input string, [clean_name_for_fs] keeps the characters
    that are alphanumeric, a space, an underscore or a hyphen and only
    them, and removes whitespace at both ends of the result. The result
    holds such characters only (in ASCII: digits, letters, space,
    underscore, hyphen); it is the run of those characters of the input,
    in order, with whitespace cut off at the two ends and nothing else
    removed, so that every digit, letter, underscore and hyphen of the
    input is in it; it neither starts nor ends with whitespace;
    [" foo/bar:baz "] sanitizes to ["foobarbaz"], and
    [" my_cool-emoji party parrot "] to ["my_cool-emoji party parrot"]. *)
Theorem clean_name_for_fs_sanitizes (name : str) :
  Forall (fun c => isalnum c = true \/ c = 32 \/ c = 95 \/ c = 45)
    (clean_name_for_fs name)
  /\ (forall c, In c (clean_name_for_fs name) -> c < 128 ->
        ascii_letter_or_digit c \/ c = 32 \/ c = 95 \/ c = 45)
  /\ sublist (clean_name_for_fs name) name
  /\ (exists pre suf,
        List.filter allowed_in_names name = pre ++ clean_name_for_fs name ++ suf
        /\ Forall (fun c => isspace c = true) pre
        /\ Forall (fun c => isspace c = true) suf)
  /\ (forall c, In c name ->
        ascii_letter_or_digit c \/ c = 95 \/ c = 45 ->
        In c (clean_name_for_fs name))
  /\ (forall c, In c name -> isalnum c = true -> isspace c = false ->
        In c (clean_name_for_fs name))
  /\ (forall c, head (clean_name_for_fs name) = Some c -> isspace c = false)
  /\ (forall c, last (clean_name_for_fs name) = Some c -> isspace c = false)
  /\ clean_name_for_fs (py " foo/bar:baz ") = py "foobarbaz"
  /\ clean_name_for_fs (py " my_cool-emoji party parrot ") =
       py "my_cool-emoji party parrot".
Proof.
  split; [| split; [| split; [| split; [| split; [| split; [| split;
    [| split; [| split]]]]]]]].
  - eapply Forall_impl; [apply clean_name_for_fs_kept |].
    intros c Hc. change (keep c = true) in Hc.
    rewrite keep_allowed_in_names in Hc. unfold allowed_in_names in Hc.
    rewrite !orb_true_iff, !N.eqb_eq in Hc. tauto.
  - intros c Hc. apply keep_ascii.
    apply (proj1 (Forall_forall _ _) (clean_name_for_fs_kept name)), list_elem_of_In, Hc.
  - apply clean_name_for_fs_sublist.
  - rewrite <- filter_keep_allowed. apply clean_name_for_fs_split.
  - intros c Hin [Hc | [-> | ->]].
    + destruct (ascii_letter_or_digit_isalnum c Hc) as [Halnum Hnospace].
      apply clean_name_for_fs_retains; [exact Hin | | exact Hnospace].
      unfold keep. rewrite Halnum. reflexivity.
    + apply clean_name_for_fs_retains; [exact Hin | |]; reflexivity.
    + apply clean_name_for_fs_retains; [exact Hin | |]; reflexivity.
  - intros c Hin Halnum Hnospace.
    apply clean_name_for_fs_retains; [exact Hin | | exact Hnospace].
    unfold keep. rewrite Halnum. reflexivity.
  - intros c. apply strip_head.
  - intros c. apply strip_last.
  - reflexivity.
  - reflexivity.
Qed.

(** C10: sanitizing is idempotent, so that a sanitized name maps to
    itself: [clean_name_for_fs (clean_name_for_fs s) = clean_name_for_fs s]
    for every string [s]. *)
Theorem clean_name_for_fs_idempotent (s : str) :
  clean_name_for_fs (clean_name_for_fs s) = clean_name_for_fs s.
Proof.
  unfold clean_name_for_fs at 1.
  rewrite filter_all_true by apply clean_name_for_fs_kept.
  apply strip_idempotent.
Qed.

End SanitizeFacts.

(** ** The filesystem namespace *)

Lemma mkdir_below_lookup (parts : list str) :
  forall (base : path) (t t1 : gmap path node),
    mkdir_below base parts t = Ok t1 ->
    forall q : path,
      t1 !! q = t !! q \/ (t !! q = None /\ t1 !! q = Some Dir).
Proof.
  induction parts as [|c rest IH]; intros base t t1; simpl.
  - intros [= <-] q. left. reflexivity.
  - destruct (t !! (base ++ [c])) as [[data|]|] eqn:Hq; [discriminate | |].
    + apply IH.
    + intros Hrec q. destruct (IH _ _ _ Hrec q) as [Hsame | [Hnone Hdir]].
      * destruct (decide (base ++ [c] = q)) as [<- | Hne].
        -- right. rewrite Hsame, lookup_insert_eq. auto.
        -- left. rewrite Hsame. apply lookup_insert_ne. exact Hne.
      * destruct (decide (base ++ [c] = q)) as [<- | Hne].
        -- rewrite lookup_insert_eq in Hnone. discriminate.
        -- right. rewrite lookup_insert_ne in Hnone by exact Hne. auto.
Qed.

Lemma mkdir_below_deeper (parts : list str) :
  forall (base : path) (t t1 : gmap path node),
    mkdir_below base parts t = Ok t1 ->
    forall q : path,
      (length base + length parts < length q)%nat -> t1 !! q = t !! q.
Proof.
  induction parts as [|c rest IH]; intros base t t1; simpl.
  - intros [= <-] q _. reflexivity.
  - destruct (t !! (base ++ [c])) as [[data|]|] eqn:Hq; [discriminate | |];
      intros Hrec q Hlen.
    + apply (IH _ _ _ Hrec). rewrite length_app. simpl. lia.
    + rewrite (IH _ _ _ Hrec) by (rewrite length_app; simpl; lia).
      apply lookup_insert_ne. intros <-. rewrite length_app in Hlen. simpl in Hlen. lia.
Qed.

Lemma mkdir_below_dir (parts : list str) :
  forall (base : path) (t t1 : gmap path node),
    mkdir_below base parts t = Ok t1 ->
    parts <> [] ->
    t1 !! (base ++ parts) = Some Dir.
Proof.
  induction parts as [|c rest IH]; intros base t t1; simpl; [congruence |].
  destruct (t !! (base ++ [c])) as [[data|]|] eqn:Hq; [discriminate | |];
    intros Hrec _.
  - destruct rest as [|c' rest'].
    + simpl in Hrec. injection Hrec as <-. exact Hq.
    + change (base ++ c :: c' :: rest') with (base ++ [c] ++ c' :: rest').
      rewrite app_assoc. apply (IH _ _ _ Hrec). discriminate.
  - destruct rest as [|c' rest'].
    + simpl in Hrec. injection Hrec as <-. apply lookup_insert_eq.
    + change (base ++ c :: c' :: rest') with (base ++ [c] ++ c' :: rest').
      rewrite app_assoc. apply (IH _ _ _ Hrec). discriminate.
Qed.

(** After [mkdir(parents=True, exist_ok=True)] the path is a directory. *)
Lemma mkdir_parents_is_dir (p : path) (t t1 : gmap path node) :
  mkdir_parents p t = Ok t1 -> node_at t1 p = Some Dir.
Proof.
  intros Hmk. destruct p as [|c p]; [reflexivity |].
  simpl. apply (mkdir_below_dir (c :: p) [] t t1 Hmk). discriminate.
Qed.

(** It only adds directories: what was there stays as it was. *)
Lemma mkdir_parents_node_at (p : path) (t t1 : gmap path node) (q : path) :
  mkdir_parents p t = Ok t1 ->
  node_at t1 q = node_at t q \/ (node_at t q = None /\ node_at t1 q = Some Dir).
Proof.
  intros Hmk. destruct q as [|c q]; [left; reflexivity |].
  simpl. apply (mkdir_below_lookup p [] t t1 Hmk).
Qed.

Lemma length_parent (p : path) : p <> [] -> length p = S (length (parent p)).
Proof.
  intros Hp. unfold parent.
  destruct (exists_last Hp) as (l & x & ->).
  rewrite removelast_last, length_app. simpl. lia.
Qed.

(** Creating the parent directory of a path does not touch the path. *)
Lemma mkdir_parent_keeps (p : path) (t t1 : gmap path node) :
  mkdir_parents (parent p) t = Ok t1 -> node_at t1 p = node_at t p.
Proof.
  intros Hmk. destruct p as [|c p]; [reflexivity |].
  change (t1 !! (c :: p) = t !! (c :: p)).
  apply (mkdir_below_deeper _ [] t t1 Hmk).
  rewrite (length_parent (c :: p)) by discriminate. simpl. lia.
Qed.

Lemma mkdir_parents_is_file (p : path) (t t1 : gmap path node) (q : path) :
  mkdir_parents p t = Ok t1 -> is_file t q = true -> is_file t1 q = true.
Proof.
  intros Hmk. unfold is_file.
  destruct (mkdir_parents_node_at p t t1 q Hmk) as [-> | [-> _]]; [auto | discriminate].
Qed.

Lemma write_file_node_at (p : path) (data : bytes) (t t1 : gmap path node) :
  write_file p data t = Ok t1 ->
  node_at t1 p = Some (File data)
  /\ forall q, q <> p -> node_at t1 q = node_at t q.
Proof.
  unfold write_file.
  destruct (node_at t (parent p)) as [[d|]|]; try discriminate.
  destruct p as [|c p]; [discriminate |].
  destruct (node_at t (c :: p)) as [[d|]|] eqn:Hp; try discriminate;
    intros [= <-]; (split; [apply lookup_insert_eq |]);
    intros [|c' q] Hne; try reflexivity; apply lookup_insert_ne; congruence.
Qed.

Lemma write_file_is_file (p : path) (data : bytes) (t t1 : gmap path node) (q : path) :
  write_file p data t = Ok t1 -> is_file t q = true -> is_file t1 q = true.
Proof.
  intros Hw. destruct (write_file_node_at p data t t1 Hw) as [Hp Hothers].
  unfold is_file. destruct (decide (q = p)) as [-> | Hne].
  - rewrite Hp. reflexivity.
  - rewrite (Hothers q Hne). auto.
Qed.

(** When a write succeeds and when it raises. *)
Lemma write_file_ok (p : path) (data : bytes) (t : gmap path node) :
  node_at t (parent p) = Some Dir -> is_dir t p = false ->
  write_file p data t = Ok (<[p := File data]> t).
Proof.
  unfold write_file, is_dir. intros -> Hp.
  destruct (node_at t p) as [[d|]|]; [reflexivity | discriminate | reflexivity].
Qed.

Lemma write_file_onto_dir (p : path) (data : bytes) (t : gmap path node) :
  node_at t (parent p) = Some Dir -> is_dir t p = true ->
  write_file p data t = Raise (OSError IsADirectoryError).
Proof.
  unfold write_file, is_dir. intros -> Hp.
  destruct (node_at t p) as [[d|]|]; [discriminate | reflexivity | discriminate].
Qed.

(** ** The executor *)

Section ExecutorFacts.
Context `{unicode : UnicodeDB} `{services : Services}.

Lemma download_job_skips (job : DownloadJob) (w : World) :
  done job (fs w) = true -> download_job job w = (w, Ok (job, true)).
Proof. intros Hdone. unfold download_job. rewrite Hdone. reflexivity. Qed.

(** The run of a job that is not done, up to the response of the fetch. *)
Lemma download_job_fetches (job : DownloadJob) (w : World)
    (t1 : gmap path node) (r : response) :
  done job (fs w) = false ->
  mkdir_parents (parent (dest_path job)) (fs w) = Ok t1 ->
  dl_get (dl_requests w) (source_url job) = Responded r ->
  download_job job w =
    (if status_code r =? NOT_FOUND then
       log_warning (py "Not found: " ++ description job) ;; ret (job, false)
     else
       raise_for_status r ;;
       write_bytes (dest_path job) (content r) ;;
       ret (job, true))
      (add_dl_request (source_url job) (set_fs t1 w)).
Proof.
  intros Hdone Hmk Hget. unfold download_job. rewrite Hdone.
  unfold bind at 1. unfold mkdir, fs_update. rewrite Hmk.
  unfold bind at 1. unfold dl_client_get. simpl. rewrite Hget. reflexivity.
Qed.

Lemma mkdir_parents_same_files (p : path) (t t1 : gmap path node) (q : path) :
  mkdir_parents p t = Ok t1 -> is_file t1 q = is_file t q.
Proof.
  intros Hmk. unfold is_file.
  destruct (mkdir_parents_node_at p t t1 q Hmk) as [-> | [-> ->]]; reflexivity.
Qed.

(** C5: a job that is done when its execution begins (a file exists at
    its [dest_path]) is returned as a success at once: no request is
    sent, the filesystem and the rest of the world stay as they were. *)
Theorem download_job_done_short_circuits (job : DownloadJob) (w : World) :
  done job (fs w) = true ->
  download_job job w = (w, Ok (job, true))
  /\ dl_requests (fst (download_job job w)) = dl_requests w
  /\ fs (fst (download_job job w)) = fs w.
Proof.
  intros Hdone. rewrite (download_job_skips job w Hdone). auto.
Qed.

(** C2: when the fetch of a job answers "not found", executing the job
    logs the warning that names the job, returns the job with the flag
    [False], leaves [dest_path] (and every file) as it was and does not
    raise, so that the loop over the jobs goes on with the next one. *)
Theorem download_job_not_found_is_soft (job : DownloadJob) (w : World)
    (t1 : gmap path node) (r : response) :
  done job (fs w) = false ->
  mkdir_parents (parent (dest_path job)) (fs w) = Ok t1 ->
  dl_get (dl_requests w) (source_url job) = Responded r ->
  status_code r = NOT_FOUND ->
  let w' := add_log WARNING (py "Not found: " ++ description job)
              (add_dl_request (source_url job) (set_fs t1 w)) in
  download_job job w = (w', Ok (job, false))
  /\ log_records w' =
       log_records w ++ [(WARNING, py "Not found: " ++ description job)]
  /\ node_at (fs w') (dest_path job) = node_at (fs w) (dest_path job)
  /\ (forall q, is_file (fs w') q = is_file (fs w) q)
  /\ forall rest,
       run_jobs (job :: rest) w =
         match run_jobs rest w' with
         | (w'', Ok results) => (w'', Ok ((job, false) :: results))
         | (w'', Raise e) => (w'', Raise e)
         end.
Proof.
  intros Hdone Hmk Hget Hstatus w'.
  assert (Hrun : download_job job w = (w', Ok (job, false))).
  { rewrite (download_job_fetches job w t1 r Hdone Hmk Hget).
    rewrite Hstatus. reflexivity. }
  split; [exact Hrun |]. split; [reflexivity |].
  split; [apply (mkdir_parent_keeps _ _ _ Hmk) |].
  split; [intros q; apply (mkdir_parents_same_files _ _ _ q Hmk) |].
  intros rest. simpl. unfold bind at 1. rewrite Hrun.
  unfold bind. destruct (run_jobs rest w') as [w'' [results | e]]; reflexivity.
Qed.

(** The run of a job whose fetch answers a success. *)
Lemma download_job_success (job : DownloadJob) (w : World)
    (t1 : gmap path node) (r : response) :
  done job (fs w) = false ->
  mkdir_parents (parent (dest_path job)) (fs w) = Ok t1 ->
  dl_get (dl_requests w) (source_url job) = Responded r ->
  is_success r = true ->
  let w1 := add_dl_request (source_url job) (set_fs t1 w) in
  download_job job w =
    if is_dir (fs w) (dest_path job)
    then (w1, Raise (OSError IsADirectoryError))
    else (set_fs (<[dest_path job := File (content r)]> t1) w1, Ok (job, true)).
Proof.
  intros Hdone Hmk Hget Hok w1.
  rewrite (download_job_fetches job w t1 r Hdone Hmk Hget).
  assert (Hstatus : (status_code r =? NOT_FOUND) = false).
  { unfold is_success in Hok. apply andb_true_iff in Hok as [_ Hle].
    apply N.leb_le in Hle. apply N.eqb_neq. unfold NOT_FOUND. lia. }
  rewrite Hstatus. unfold bind at 1. unfold raise_for_status. rewrite Hok.
  unfold ret at 1. unfold bind at 1. unfold write_bytes, fs_update.
  pose proof (mkdir_parents_is_dir _ _ _ Hmk) as Hparent.
  assert (Hdir : is_dir t1 (dest_path job) = is_dir (fs w) (dest_path job)).
  { unfold is_dir. rewrite (mkdir_parent_keeps _ _ _ Hmk). reflexivity. }
  rewrite <- Hdir. simpl fs.
  destruct (is_dir t1 (dest_path job)) eqn:Hd.
  - rewrite (write_file_onto_dir _ _ _ Hparent Hd). reflexivity.
  - rewrite (write_file_ok _ _ _ Hparent Hd). reflexivity.
Qed.

(** The run of a job whose fetch answers neither a success nor
    "not found". *)
Lemma download_job_fatal (job : DownloadJob) (w : World)
    (t1 : gmap path node) (r : response) :
  done job (fs w) = false ->
  mkdir_parents (parent (dest_path job)) (fs w) = Ok t1 ->
  dl_get (dl_requests w) (source_url job) = Responded r ->
  fatal_status r = true ->
  download_job job w =
    (add_dl_request (source_url job) (set_fs t1 w),
     Raise (HTTPStatusError (status_code r))).
Proof.
  intros Hdone Hmk Hget Hfatal.
  rewrite (download_job_fetches job w t1 r Hdone Hmk Hget).
  unfold fatal_status in Hfatal. apply andb_true_iff in Hfatal as [Hbad Hnf].
  apply negb_true_iff in Hbad, Hnf. rewrite Hnf.
  unfold bind, raise_for_status. rewrite Hbad. reflexivity.
Qed.

(** The run of a job whose fetch answers a success, by the outcome of
    the final write. *)
Lemma download_job_success_write (job : DownloadJob) (w : World)
    (t1 : gmap path node) (r : response) :
  done job (fs w) = false ->
  mkdir_parents (parent (dest_path job)) (fs w) = Ok t1 ->
  dl_get (dl_requests w) (source_url job) = Responded r ->
  is_success r = true ->
  let w1 := add_dl_request (source_url job) (set_fs t1 w) in
  download_job job w =
    match write_file (dest_path job) (content r) t1 with
    | Ok t2 => (set_fs t2 w1, Ok (job, true))
    | Raise e => (w1, Raise e)
    end.
Proof.
  intros Hdone Hmk Hget Hok w1.
  rewrite (download_job_fetches job w t1 r Hdone Hmk Hget).
  assert (Hstatus : (status_code r =? NOT_FOUND) = false).
  { unfold is_success in Hok. apply andb_true_iff in Hok as [_ Hle].
    apply N.leb_le in Hle. apply N.eqb_neq. unfold NOT_FOUND. lia. }
  rewrite Hstatus. unfold bind at 1. unfold raise_for_status. rewrite Hok.
  unfold ret at 1. unfold bind at 1. unfold write_bytes, fs_update. simpl fs.
  destruct (write_file (dest_path job) (content r) t1); reflexivity.
Qed.

(** C3, as the code has it: when the fetch of a job answers a response
    that is neither a success nor "not found", executing the job raises,
    so that the loop over the batch ends in an exception, and leaves
    [dest_path] and every file as they were. A job whose fetch returns a
    response raises if and only if the response is neither a success nor
    "not found", or the response is a success and the final write to
    [dest_path] raises, as it does when [dest_path] is a directory. *)
Theorem download_job_raises_iff (job : DownloadJob) (w : World)
    (t1 : gmap path node) (r : response) :
  done job (fs w) = false ->
  mkdir_parents (parent (dest_path job)) (fs w) = Ok t1 ->
  dl_get (dl_requests w) (source_url job) = Responded r ->
  let w1 := add_dl_request (source_url job) (set_fs t1 w) in
  (fatal_status r = true ->
     download_job job w = (w1, Raise (HTTPStatusError (status_code r)))
     /\ node_at (fs w1) (dest_path job) = node_at (fs w) (dest_path job)
     /\ (forall q, is_file (fs w1) q = is_file (fs w) q)
     /\ forall rest, exists e, snd (run_jobs (job :: rest) w) = Raise e)
  /\ (raises (download_job job) w <->
        fatal_status r = true
        \/ (is_success r = true
            /\ exists e, write_file (dest_path job) (content r) t1 = Raise e))
  /\ (is_success r = true -> is_dir (fs w) (dest_path job) = true ->
      raises (download_job job) w).
Proof.
  intros Hdone Hmk Hget w1. split; [| split].
  - intros Hfatal.
    pose proof (download_job_fatal job w t1 r Hdone Hmk Hget Hfatal) as Hrun.
    split; [exact Hrun |].
    split; [apply (mkdir_parent_keeps _ _ _ Hmk) |].
    split; [intros q; apply (mkdir_parents_same_files _ _ _ q Hmk) |].
    intros rest. exists (HTTPStatusError (status_code r)).
    simpl. unfold bind at 1. rewrite Hrun. reflexivity.
  - unfold raises. destruct (is_success r) eqn:Hok.
    + rewrite (download_job_success_write job w t1 r Hdone Hmk Hget Hok).
      assert (Hnot : fatal_status r = false)
        by (unfold fatal_status; rewrite Hok; reflexivity).
      rewrite Hnot.
      destruct (write_file (dest_path job) (content r) t1) as [t2 | e]; simpl; split.
      * intros [e He]. discriminate.
      * intros [? | [_ [e He]]]; discriminate.
      * eauto.
      * eauto.
    + destruct (status_code r =? NOT_FOUND) eqn:Hnf.
      * rewrite (download_job_fetches job w t1 r Hdone Hmk Hget), Hnf.
        assert (Hnot : fatal_status r = false)
          by (unfold fatal_status; rewrite Hnf, andb_false_r; reflexivity).
        rewrite Hnot. simpl. split.
        -- intros [e He]. discriminate.
        -- intros [? | [? _]]; discriminate.
      * assert (Hfatal : fatal_status r = true)
          by (unfold fatal_status; rewrite Hok, Hnf; reflexivity).
        rewrite (download_job_fatal job w t1 r Hdone Hmk Hget Hfatal).
        simpl. split; eauto.
  - intros Hok Hdir. unfold raises.
    rewrite (download_job_success job w t1 r Hdone Hmk Hget Hok), Hdir.
    simpl. eauto.
Qed.

End ExecutorFacts.

(** ** The job builder *)

Lemma path_div_file (p : path) (stem ext : str) :
  ext <> [] -> path_div p (stem ++ py "." ++ ext) = p ++ [stem ++ py "." ++ ext].
Proof.
  intros Hext. unfold path_div.
  rewrite (bool_decide_eq_false_2 (stem ++ py "." ++ ext = [])).
  - rewrite (bool_decide_eq_false_2 (stem ++ py "." ++ ext = py ".")); [reflexivity |].
    intros Heq. apply (f_equal (@length char)) in Heq.
    rewrite !length_app in Heq. simpl in Heq.
    destruct ext; [congruence | simpl in Heq; lia].
  - intros Heq. apply app_eq_nil in Heq as [_ Heq]. discriminate.
Qed.

Lemma parent_snoc (p : path) (segment : str) : parent (p ++ [segment]) = p.
Proof. apply removelast_last. Qed.

Lemma yield_each_Forall2 {A} (f : A -> res DownloadJob) (items : list A) :
  Forall (fun x => exists job, f x = Ok job) items ->
  exists jobs,
    yield_each f items = Ok jobs /\ Forall2 (fun x job => f x = Ok job) items jobs.
Proof.
  induction 1 as [|x items [job Hjob] _ (jobs & Hrest & Hall)]; simpl.
  - exists []. split; [reflexivity | constructor].
  - exists (job :: jobs). rewrite Hjob, Hrest.
    split; [reflexivity | constructor; assumption].
Qed.

Section BuilderFacts.
Context `{unicode : UnicodeDB} `{services : Services}.

Lemma emoji_job_dest (guild_name : json) (guild_path : path) (emoji : json)
    (name : str) (animated : json) :
  emoji_fields emoji name animated ->
  exists job,
    emoji_job guild_name (path_div guild_path (py "emojis")) emoji = Ok job
    /\ dest_path job =
         guild_path ++ [py "emojis";
                        clean_name_for_fs name ++ py "." ++ gif_or_png animated].
Proof.
  intros (Ha & Hn & emoji_id & Hi). unfold emoji_job.
  rewrite Ha, Hn, Hi. unfold as_str. eexists. split; [reflexivity |].
  cbn [dest_path].
  rewrite path_div_file by (unfold gif_or_png; destruct (truthy animated); discriminate).
  change (path_div guild_path (py "emojis")) with (guild_path ++ [py "emojis"]).
  rewrite <- app_assoc. reflexivity.
Qed.

Lemma sticker_job_dest (guild_name : json) (guild_path : path) (sticker : json)
    (name : str) :
  sticker_fields sticker name ->
  exists job,
    sticker_job guild_name (path_div guild_path (py "stickers")) sticker = Ok job
    /\ dest_path job =
         guild_path ++ [py "stickers"; clean_name_for_fs name ++ py ".png"].
Proof.
  intros (Hn & sticker_id & Hi). unfold sticker_job.
  rewrite Hn, Hi. unfold as_str. eexists. split; [reflexivity |].
  cbn [dest_path].
  change (py ".png") with (py "." ++ py "png").
  rewrite path_div_file by discriminate.
  change (path_div guild_path (py "stickers")) with (guild_path ++ [py "stickers"]).
  rewrite <- app_assoc. reflexivity.
Qed.

(** The effects of the builder come first and do not depend on the
    assets: the directory, then the snapshot. *)
Lemma get_downloads_from_guild_info_steps (root_path : path)
    (kvs : list (str * json)) (guild_name : str) (w : World)
    (t1 t2 : gmap path node) :
  let guild_path := path_div root_path (clean_name_for_fs guild_name) in
  dict_lookup (py "name") kvs = Some (JStr guild_name) ->
  mkdir_parents guild_path (fs w) = Ok t1 ->
  write_file (guild_path ++ [py "info.json"])
    (encode_text (json_dumps true (Some 2%nat) (JObj kvs))) t1 = Ok t2 ->
  get_downloads_from_guild_info root_path (JObj kvs) w =
    (set_fs t2 w, yield_jobs guild_path (JObj kvs) (JStr guild_name)).
Proof.
  intros guild_path Hname Hmk Hwrite.
  unfold get_downloads_from_guild_info, bind, lift, mkdir, write_bytes, fs_update.
  simpl. rewrite Hname. simpl. fold guild_path. rewrite Hmk. simpl.
  change (path_div guild_path (py "info.json")) with (guild_path ++ [py "info.json"]).
  rewrite Hwrite. reflexivity.
Qed.

(** C4: for a collection record with E emojis and S stickers the builder
    emits exactly E+S jobs, the emojis first: the job of an emoji has the
    [dest_path] [<collection_dir>/emojis/<sanitized name>.gif] when the
    emoji is animated and [.png] when it is not, the job of a sticker has
    [<collection_dir>/stickers/<sanitized name>.png]. *)
Theorem get_downloads_from_guild_info_one_job_per_asset (root_path : path)
    (kvs : list (str * json)) (guild_name : str)
    (emojis stickers : list json) (w : World) (t1 t2 : gmap path node) :
  let guild_path := path_div root_path (clean_name_for_fs guild_name) in
  dict_lookup (py "name") kvs = Some (JStr guild_name) ->
  get_items (JObj kvs) (py "emojis") = Ok emojis ->
  get_items (JObj kvs) (py "stickers") = Ok stickers ->
  Forall (fun emoji => exists name animated, emoji_fields emoji name animated)
    emojis ->
  Forall (fun sticker => exists name, sticker_fields sticker name) stickers ->
  mkdir_parents guild_path (fs w) = Ok t1 ->
  write_file (guild_path ++ [py "info.json"])
    (encode_text (json_dumps true (Some 2%nat) (JObj kvs))) t1 = Ok t2 ->
  exists jobs,
    get_downloads_from_guild_info root_path (JObj kvs) w = (set_fs t2 w, Ok jobs)
    /\ length jobs = (length emojis + length stickers)%nat
    /\ (forall i emoji, emojis !! i = Some emoji ->
          exists job name animated,
            jobs !! i = Some job
            /\ emoji_fields emoji name animated
            /\ dest_path job =
                 guild_path ++
                   [py "emojis";
                    clean_name_for_fs name ++
                      (if truthy animated then py ".gif" else py ".png")])
    /\ (forall i sticker, stickers !! i = Some sticker ->
          exists job name,
            jobs !! (length emojis + i)%nat = Some job
            /\ sticker_fields sticker name
            /\ dest_path job =
                 guild_path ++
                   [py "stickers"; clean_name_for_fs name ++ py ".png"]).
Proof.
  intros guild_path Hname Hemojis Hstickers Hwf_e Hwf_s Hmk Hwrite.
  set (make_e := emoji_job (JStr guild_name) (path_div guild_path (py "emojis"))).
  set (make_s := sticker_job (JStr guild_name) (path_div guild_path (py "stickers"))).
  destruct (yield_each_Forall2 make_e emojis) as (ejobs & Hey & Hef).
  { eapply Forall_impl; [exact Hwf_e |]. intros e (name & animated & Hf).
    destruct (emoji_job_dest (JStr guild_name) guild_path e name animated Hf)
      as (job & Hjob & _). eauto. }
  destruct (yield_each_Forall2 make_s stickers) as (sjobs & Hsy & Hsf).
  { eapply Forall_impl; [exact Hwf_s |]. intros s (name & Hf).
    destruct (sticker_job_dest (JStr guild_name) guild_path s name Hf)
      as (job & Hjob & _). eauto. }
  exists (ejobs ++ sjobs).
  split; [| split; [| split]].
  - rewrite (get_downloads_from_guild_info_steps root_path kvs guild_name w t1 t2
               Hname Hmk Hwrite).
    fold guild_path. unfold yield_jobs. rewrite Hemojis, Hstickers.
    fold make_e make_s. rewrite Hey, Hsy. reflexivity.
  - rewrite length_app, (Forall2_length _ _ _ Hef), (Forall2_length _ _ _ Hsf).
    reflexivity.
  - intros i emoji Hi.
    destruct (Forall2_lookup_l _ _ _ _ _ Hef Hi) as (job & Hjob & Hmade).
    destruct (proj1 (Forall_lookup _ _) Hwf_e i emoji Hi) as (name & animated & Hf).
    exists job, name, animated.
    split; [apply lookup_app_l_Some; exact Hjob |]. split; [exact Hf |].
    destruct (emoji_job_dest (JStr guild_name) guild_path emoji name animated Hf)
      as (job' & Hjob' & Hdest).
    fold make_e in Hjob'. rewrite Hmade in Hjob'. injection Hjob' as <-.
    rewrite Hdest. unfold gif_or_png. destruct (truthy animated); reflexivity.
  - intros i sticker Hi.
    destruct (Forall2_lookup_l _ _ _ _ _ Hsf Hi) as (job & Hjob & Hmade).
    destruct (proj1 (Forall_lookup _ _) Hwf_s i sticker Hi) as (name & Hf).
    exists job, name.
    split.
    { rewrite (Forall2_length _ _ _ Hef), lookup_app_r by lia.
      replace (length ejobs + i - length ejobs)%nat with i by lia. exact Hjob. }
    split; [exact Hf |].
    destruct (sticker_job_dest (JStr guild_name) guild_path sticker name Hf)
      as (job' & Hjob' & Hdest).
    fold make_s in Hjob'. rewrite Hmade in Hjob'. injection Hjob' as <-.
    exact Hdest.
Qed.

(** C7: for every collection record the builder processes, whatever the
    assets of the record and whether or not they are downloaded already,
    the file [<collection_dir>/info.json] holds, once the builder has
    run, the whole record as [json.dumps(guild, sort_keys=True, indent=2)]
    writes it: what the file held before is overwritten, and no [done]
    check stands before the write. *)
Theorem get_downloads_from_guild_info_rewrites_snapshot (root_path : path)
    (kvs : list (str * json)) (guild_name : str) (w : World)
    (t1 : gmap path node) :
  let guild_path := path_div root_path (clean_name_for_fs guild_name) in
  let snapshot := encode_text (json_dumps true (Some 2%nat) (JObj kvs)) in
  dict_lookup (py "name") kvs = Some (JStr guild_name) ->
  mkdir_parents guild_path (fs w) = Ok t1 ->
  is_dir (fs w) (guild_path ++ [py "info.json"]) = false ->
  get_downloads_from_guild_info root_path (JObj kvs) w =
    (set_fs (<[guild_path ++ [py "info.json"] := File snapshot]> t1) w,
     yield_jobs guild_path (JObj kvs) (JStr guild_name))
  /\ node_at (fs (fst (get_downloads_from_guild_info root_path (JObj kvs) w)))
       (guild_path ++ [py "info.json"]) = Some (File snapshot).
Proof.
  intros guild_path snapshot Hname Hmk Hnodir.
  assert (Hwrite : write_file (guild_path ++ [py "info.json"]) snapshot t1 =
                     Ok (<[guild_path ++ [py "info.json"] := File snapshot]> t1)).
  { apply write_file_ok.
    - rewrite parent_snoc. apply (mkdir_parents_is_dir _ _ _ Hmk).
    - unfold is_dir in *.
      rewrite (mkdir_parent_keeps (guild_path ++ [py "info.json"]) (fs w) t1);
        [exact Hnodir | rewrite parent_snoc; exact Hmk]. }
  rewrite (get_downloads_from_guild_info_steps root_path kvs guild_name w t1 _
             Hname Hmk Hwrite).
  split; [reflexivity |].
  destruct (write_file_node_at _ _ _ _ Hwrite) as [Hfile _]. exact Hfile.
Qed.

End BuilderFacts.

(** ** The enumerator of the caller's own guilds *)

Lemma dict_lookup_or_left (k : str) (d1 d2 rest : list (str * json)) :
  dict_lookup k
    (map (fun kv => (fst kv, default (snd kv) (dict_lookup (fst kv) d2))) d1 ++ rest) =
    match dict_lookup k d1 with
    | Some v => Some (default v (dict_lookup k d2))
    | None => dict_lookup k rest
    end.
Proof.
  induction d1 as [|[k' v'] d1 IH]; simpl; [reflexivity |].
  destruct (bool_decide (k = k')) eqn:Hk; [| exact IH].
  apply bool_decide_eq_true_1 in Hk. subst k'. reflexivity.
Qed.

Lemma dict_lookup_or_right (k : str) (d1 d2 : list (str * json)) :
  has_key k d1 = false ->
  dict_lookup k (List.filter (fun kv => negb (has_key (fst kv) d1)) d2) =
    dict_lookup k d2.
Proof.
  intros Hk. induction d2 as [|[k' v'] d2 IH]; simpl; [reflexivity |].
  destruct (bool_decide (k = k')) eqn:Hkk.
  - apply bool_decide_eq_true_1 in Hkk. subst k'. rewrite Hk. simpl.
    rewrite bool_decide_eq_true_2 by reflexivity. reflexivity.
  - destruct (negb (has_key k' d1)); simpl; [rewrite Hkk |]; exact IH.
Qed.

(** Lookup in [d1 | d2]: the value of [d2] when [d2] has the key, that of
    [d1] otherwise. *)
Lemma dict_lookup_or (k : str) (d1 d2 : list (str * json)) :
  dict_lookup k (dict_or d1 d2) =
    match dict_lookup k d2 with
    | Some v => Some v
    | None => dict_lookup k d1
    end.
Proof.
  unfold dict_or. rewrite dict_lookup_or_left.
  destruct (dict_lookup k d1) as [v1|] eqn:H1.
  - destruct (dict_lookup k d2); reflexivity.
  - rewrite dict_lookup_or_right by (unfold has_key; rewrite H1; reflexivity).
    destruct (dict_lookup k d2); reflexivity.
Qed.

Section EnumeratorFacts.
Context `{unicode : UnicodeDB} `{services : Services}.

(** What [get_my_guilds_info] does before its loop, and the turns of the
    loop: one per record of the listing. *)
Lemma get_my_guilds_info_listing (w : World) (r : response) (guilds : json)
    (items : list json) :
  discord_api_get (api_requests w) (py "https://discord.com/api/v10/users/@me/guilds")
    = Responded r ->
  is_success r = true ->
  json_body r = Some guilds ->
  py_iter guilds = Ok items ->
  get_my_guilds_info w =
    (add_api_request (py "https://discord.com/api/v10/users/@me/guilds") w,
     Ok (map my_guild_info items)).
Proof.
  intros Hget Hok Hbody Hiter.
  unfold get_my_guilds_info, bind, discord_api_client_get.
  rewrite Hget. unfold raise_for_status. rewrite Hok. unfold ret at 1.
  unfold response_json. rewrite Hbody. unfold ret at 1.
  unfold lift. rewrite Hiter. reflexivity.
Qed.

(** C8: under the self-owned strategy each record the enumerator yields
    is the summary record of the listing merged with the detail record
    of the per-guild endpoint, [guild | data]: a key of the result has
    the value of the detail record when the detail record has the key,
    in particular when both records have it, and the value of the
    summary record otherwise. *)
Theorem get_my_guilds_info_merges_summary_and_detail
    (summary detail : list (str * json)) (guild_id : json) (r : response)
    (w : World) :
  let url := py "https://discord.com/api/v10/guilds/" ++ format_value guild_id in
  dict_lookup (py "id") summary = Some guild_id ->
  discord_api_get (api_requests w) url = Responded r ->
  is_success r = true ->
  json_body r = Some (JObj detail) ->
  my_guild_info (JObj summary) w =
    (add_api_request url w, Ok (JObj (dict_or summary detail)))
  /\ (forall k,
        dict_lookup k (dict_or summary detail) =
          match dict_lookup k detail with
          | Some v => Some v
          | None => dict_lookup k summary
          end)
  /\ (forall k v_summary v_detail,
        dict_lookup k summary = Some v_summary ->
        dict_lookup k detail = Some v_detail ->
        dict_lookup k (dict_or summary detail) = Some v_detail)
  /\ (forall (w0 : World) (listing : response) (items : list json),
        discord_api_get (api_requests w0)
          (py "https://discord.com/api/v10/users/@me/guilds") = Responded listing ->
        is_success listing = true ->
        json_body listing = Some (JArr items) ->
        get_my_guilds_info w0 =
          (add_api_request (py "https://discord.com/api/v10/users/@me/guilds") w0,
           Ok (map my_guild_info items))).
Proof.
  intros url Hid Hget Hok Hbody.
  split; [| split; [| split]].
  - unfold my_guild_info, bind, lift. simpl py_getitem. rewrite Hid.
    fold url. unfold discord_api_client_get. rewrite Hget.
    unfold raise_for_status. rewrite Hok. unfold ret at 1.
    unfold response_json. rewrite Hbody. reflexivity.
  - intros k. apply dict_lookup_or.
  - intros k v1 v2 _ H2. rewrite dict_lookup_or, H2. reflexivity.
  - intros w0 listing items Hlist Hlok Hlbody.
    apply (get_my_guilds_info_listing w0 listing (JArr items) items Hlist Hlok Hlbody).
    reflexivity.
Qed.

End EnumeratorFacts.

(** ** What every statement of the program preserves *)

Lemma mkdir_below_no_usage_error (parts : list str) :
  forall (base : path) (t : gmap path node),
    no_usage_error (mkdir_below base parts t).
Proof.
  induction parts as [|c rest IH]; intros base t; simpl; [exact I |].
  destruct (t !! (base ++ [c])) as [[data|]|]; [exact I | apply IH | apply IH].
Qed.

Lemma write_file_no_usage_error (p : path) (data : bytes) (t : gmap path node) :
  no_usage_error (write_file p data t).
Proof.
  unfold write_file.
  destruct (node_at t (parent p)) as [[d|]|]; try exact I.
  destruct (node_at t p) as [[d|]|]; exact I.
Qed.

Lemma py_getitem_no_usage_error (obj : json) (key : str) :
  no_usage_error (py_getitem obj key).
Proof.
  destruct obj; simpl; try exact I. destruct (dict_lookup key kvs); exact I.
Qed.

Lemma py_iter_no_usage_error (v : json) : no_usage_error (py_iter v).
Proof. destruct v; exact I. Qed.

Lemma as_str_no_usage_error (v : json) : no_usage_error (as_str v).
Proof. destruct v; exact I. Qed.

Lemma py_or_no_usage_error (a b : json) : no_usage_error (py_or a b).
Proof. destruct a, b; exact I. Qed.

Lemma get_items_no_usage_error (guild : json) (key : str) :
  no_usage_error (get_items guild key).
Proof. destruct guild; simpl; try exact I. apply py_iter_no_usage_error. Qed.

Lemma yield_each_no_usage_error {A} (f : A -> res DownloadJob) (items : list A) :
  (forall x, no_usage_error (f x)) -> no_usage_error (yield_each f items).
Proof.
  intros Hf. induction items as [|x items IH]; simpl; [exact I |].
  specialize (Hf x). destruct (f x) as [job | e]; [| exact Hf].
  destruct (yield_each f items) as [jobs | e]; [exact I | exact IH].
Qed.

#[local] Ltac step_res r lemma :=
  let Hr := fresh "Hr" in
  pose proof lemma as Hr; destruct r; [| exact Hr]; clear Hr.

Section RespectsFacts.
Context `{unicode : UnicodeDB} `{services : Services}.

Lemma emoji_job_no_usage_error (guild_name : json) (emoji_path : path)
    (emoji : json) :
  no_usage_error (emoji_job guild_name emoji_path emoji).
Proof.
  unfold emoji_job.
  step_res (py_getitem emoji (py "animated"))
    (py_getitem_no_usage_error emoji (py "animated")).
  step_res (py_getitem emoji (py "name"))
    (py_getitem_no_usage_error emoji (py "name")).
  step_res (py_getitem emoji (py "id"))
    (py_getitem_no_usage_error emoji (py "id")).
  step_res (as_str a0) (as_str_no_usage_error a0).
  exact I.
Qed.

Lemma sticker_job_no_usage_error (guild_name : json) (sticker_path : path)
    (sticker : json) :
  no_usage_error (sticker_job guild_name sticker_path sticker).
Proof.
  unfold sticker_job.
  step_res (py_getitem sticker (py "name"))
    (py_getitem_no_usage_error sticker (py "name")).
  step_res (py_getitem sticker (py "id"))
    (py_getitem_no_usage_error sticker (py "id")).
  step_res (as_str a) (as_str_no_usage_error a).
  exact I.
Qed.

Lemma yield_jobs_no_usage_error (guild_path : path) (guild guild_name : json) :
  no_usage_error (yield_jobs guild_path guild guild_name).
Proof.
  unfold yield_jobs.
  step_res (get_items guild (py "emojis"))
    (get_items_no_usage_error guild (py "emojis")).
  match goal with |- context [yield_each ?f ?l] =>
    step_res (yield_each f l)
      (yield_each_no_usage_error f l (emoji_job_no_usage_error _ _))
  end.
  step_res (get_items guild (py "stickers"))
    (get_items_no_usage_error guild (py "stickers")).
  match goal with |- context [yield_each ?f ?l] =>
    step_res (yield_each f l)
      (yield_each_no_usage_error f l (sticker_job_no_usage_error _ _))
  end.
  exact I.
Qed.

End RespectsFacts.

Create HintDb respects.

Section Respects.
Context `{unicode : UnicodeDB} `{services : Services}.
Context (R : World -> World -> Prop) `{!Phase R}.

Lemma respects_ret {A} (a : A) : respects R (ret a).
Proof. intros w. split; [apply phase_refl | exact I]. Qed.

Lemma respects_lift {A} (r : res A) : no_usage_error r -> respects R (lift r).
Proof. intros Hr w. split; [apply phase_refl | exact Hr]. Qed.

Lemma respects_bind {A B} (m : M A) (k : A -> M B) :
  respects R m -> (forall a, respects R (k a)) -> respects R (bind m k).
Proof.
  intros Hm Hk w. unfold bind. destruct (Hm w) as [HR Hres].
  destruct (m w) as [w1 [a | e]]; simpl in *.
  - destruct (Hk a w1) as [HR' Hres']. split; [| exact Hres'].
    eapply phase_trans; eassumption.
  - split; assumption.
Qed.

Lemma respects_fs_update (f : gmap path node -> res (gmap path node)) :
  (forall t t1, f t = Ok t1 -> files_persist t t1) ->
  (forall t, no_usage_error (f t)) ->
  respects R (fs_update f).
Proof.
  intros Hpersist Hquiet w. unfold fs_update.
  specialize (Hquiet (fs w)). specialize (Hpersist (fs w)).
  destruct (f (fs w)) as [t1 | e]; simpl.
  - split; [apply phase_fs, Hpersist; reflexivity | exact I].
  - split; [apply phase_refl | exact Hquiet].
Qed.

Lemma respects_mkdir (p : path) : respects R (mkdir p).
Proof.
  apply respects_fs_update.
  - intros t t1 Hmk q. apply (mkdir_parents_is_file p t t1 q Hmk).
  - intros t. apply mkdir_below_no_usage_error.
Qed.

Lemma respects_write_bytes (p : path) (data : bytes) :
  respects R (write_bytes p data).
Proof.
  apply respects_fs_update.
  - intros t t1 Hw q. apply (write_file_is_file p data t t1 q Hw).
  - intros t. apply write_file_no_usage_error.
Qed.

Lemma respects_log_info (message : str) : respects R (log_info message).
Proof. intros w. split; [apply phase_log | exact I]. Qed.

Lemma respects_log_warning (message : str) : respects R (log_warning message).
Proof. intros w. split; [apply phase_log | exact I]. Qed.

Lemma respects_raise_for_status (r : response) : respects R (raise_for_status r).
Proof.
  unfold raise_for_status. destruct (is_success r); [apply respects_ret |].
  intros w. split; [apply phase_refl | exact I].
Qed.

Lemma respects_response_json (r : response) : respects R (response_json r).
Proof.
  unfold response_json. destruct (json_body r); [apply respects_ret |].
  intros w. split; [apply phase_refl | exact I].
Qed.

Lemma respects_discord_api_client_get (url : str) :
  respects R (discord_api_client_get url).
Proof.
  intros w. unfold discord_api_client_get.
  destruct (discord_api_get (api_requests w) url); (split; [apply phase_api | exact I]).
Qed.

#[local] Hint Resolve respects_ret respects_lift respects_bind respects_mkdir
  respects_write_bytes respects_log_info respects_log_warning
  respects_raise_for_status respects_response_json
  respects_discord_api_client_get py_getitem_no_usage_error
  as_str_no_usage_error py_iter_no_usage_error py_or_no_usage_error
  yield_jobs_no_usage_error : respects.

Lemma respects_get_downloads_from_guild_info (root_path : path) (guild : json) :
  respects R (get_downloads_from_guild_info root_path guild).
Proof. unfold get_downloads_from_guild_info. auto 10 with respects. Qed.

Lemma respects_my_guild_info (guild : json) : respects R (my_guild_info guild).
Proof. unfold my_guild_info. auto 10 with respects. Qed.

Lemma respects_guild_info_by_id (guild_id : Z) :
  respects R (guild_info_by_id guild_id).
Proof. unfold guild_info_by_id. auto 10 with respects. Qed.

Lemma respects_guild_info_by_source_emoji_id (emoji_id : Z) :
  respects R (guild_info_by_source_emoji_id emoji_id).
Proof. unfold guild_info_by_source_emoji_id. auto 10 with respects. Qed.

Lemma respects_collect_jobs (root_path : path) (guilds : list (M json)) :
  Forall (respects R) guilds ->
  forall jobs, respects R (collect_jobs root_path guilds jobs).
Proof.
  induction 1 as [|next_guild rest Hnext _ IH]; intros jobs; simpl.
  - apply respects_ret.
  - apply respects_bind; [exact Hnext |]. intros guild.
    apply respects_bind; [apply respects_get_downloads_from_guild_info |].
    intros found. apply IH.
Qed.

Lemma respects_gen_map {A} (f : A -> M json) (items : list A) :
  (forall x, respects R (f x)) -> Forall (respects R) (map f items).
Proof. intros Hf. apply Forall_map, Forall_forall. intros x _. apply Hf. Qed.

Lemma respects_gen_get_my_guilds_info : respects_gen R get_my_guilds_info.
Proof.
  intros w. unfold get_my_guilds_info, bind.
  destruct (respects_discord_api_client_get
              (py "https://discord.com/api/v10/users/@me/guilds") w) as [HR Hres].
  destruct (discord_api_client_get _ w) as [w1 [r | e]]; simpl in *;
    [| split; assumption].
  unfold raise_for_status. destruct (is_success r); simpl;
    [| split; [exact HR | exact I]].
  unfold response_json. destruct (json_body r) as [guilds |]; simpl;
    [| split; [exact HR | exact I]].
  unfold lift. pose proof (py_iter_no_usage_error guilds) as Hiter.
  destruct (py_iter guilds) as [items | e]; simpl; [| split; assumption].
  split; [exact HR |]. apply respects_gen_map, respects_my_guild_info.
Qed.

Lemma respects_gen_select_guilds (args : Args) (g : generator) :
  select_guilds args = Ok g -> respects_gen R g.
Proof.
  unfold select_guilds.
  destruct (my_guilds args).
  { intros [= <-]. apply respects_gen_get_my_guilds_info. }
  destruct (given (guild_ids args)).
  { intros [= <-] w. split; [apply phase_refl |].
    apply respects_gen_map, respects_guild_info_by_id. }
  destruct (given (source_emoji_ids args)); [| discriminate].
  intros [= <-] w. split; [apply phase_refl |].
  apply respects_gen_map, respects_guild_info_by_source_emoji_id.
Qed.

Lemma respects_bind_gen {B} (g : generator) (k : list (M json) -> M B) :
  respects_gen R g ->
  (forall steps, Forall (respects R) steps -> respects R (k steps)) ->
  respects R (bind g k).
Proof.
  intros Hg Hk w. unfold bind. destruct (Hg w) as [HR Hres].
  destruct (g w) as [w1 [steps | e]]; simpl in *.
  - destruct (Hk steps Hres w1) as [HR' Hres']. split; [| exact Hres'].
    eapply phase_trans; eassumption.
  - split; assumption.
Qed.

End Respects.

Lemma bind_ret_fst {A B} (m : M A) (f : A -> B) (w : World) :
  fst (bind m (fun a => ret (f a)) w) = fst (m w).
Proof. unfold bind. destruct (m w) as [w1 [a | e]]; reflexivity. Qed.

Lemma bind_ret_no_usage_error {A B} (m : M A) (f : A -> B) (w : World) :
  no_usage_error (snd (bind m (fun a => ret (f a)) w)) <-> no_usage_error (snd (m w)).
Proof. unfold bind. destruct (m w) as [w1 [a | e]]; reflexivity. Qed.

Lemma files_persist_refl (t : gmap path node) : files_persist t t.
Proof. intros p Hp. exact Hp. Qed.

Lemma files_persist_trans (t1 t2 t3 : gmap path node) :
  files_persist t1 t2 -> files_persist t2 t3 -> files_persist t1 t3.
Proof. intros H12 H23 p Hp. apply H23, H12, Hp. Qed.

Lemma build_step_phase : Phase build_step.
Proof.
  split.
  - intros w. split; [apply files_persist_refl | reflexivity].
  - intros w1 w2 w3 [Hf12 Hd12] [Hf23 Hd23].
    split; [eapply files_persist_trans; eassumption | congruence].
  - intros w t Ht. split; [exact Ht | reflexivity].
  - intros w url. split; [apply files_persist_refl | reflexivity].
  - intros w l message. split; [apply files_persist_refl | reflexivity].
Qed.

Lemma any_step_phase : Phase any_step.
Proof.
  split.
  - intros w. apply files_persist_refl.
  - intros w1 w2 w3. apply files_persist_trans.
  - intros w t Ht. exact Ht.
  - intros w url. apply files_persist_refl.
  - intros w l message. apply files_persist_refl.
Qed.

#[local] Existing Instance build_step_phase.
#[local] Existing Instance any_step_phase.

Section Phases.
Context `{unicode : UnicodeDB} `{services : Services}.

(** While the catalogue is enumerated and the jobs are built, files stay
    files and the download client sends nothing. *)
Lemma build_step_collect_jobs (args : Args) (g : generator) (w : World) :
  select_guilds args = Ok g ->
  build_step w (fst (g w))
  /\ forall steps root_path jobs w1,
       snd (g w) = Ok steps ->
       build_step w1 (fst (collect_jobs root_path steps jobs w1)).
Proof.
  intros Hsel.
  destruct (respects_gen_select_guilds build_step args g Hsel w) as [Hstep Hsteps].
  split; [exact Hstep |].
  intros steps root_path jobs w1 Hok. rewrite Hok in Hsteps.
  apply (respects_collect_jobs build_step root_path steps Hsteps jobs w1).
Qed.

Lemma respects_dl_client_get (url : str) : respects any_step (dl_client_get url).
Proof.
  intros w. unfold dl_client_get.
  destruct (dl_get (dl_requests w) url);
    (split; [apply files_persist_refl | exact I]).
Qed.

Lemma respects_after_fetch (R : World -> World -> Prop) `{!Phase R}
    (job : DownloadJob) (resp : response) :
  respects R (after_fetch job resp).
Proof.
  unfold after_fetch. destruct (status_code resp =? NOT_FOUND).
  - apply respects_bind; [exact _ | apply respects_log_warning; exact _ |].
    intros _. apply respects_ret. exact _.
  - apply respects_bind; [exact _ | apply respects_raise_for_status; exact _ |].
    intros _. apply respects_bind; [exact _ | apply respects_write_bytes; exact _ |].
    intros _. apply respects_ret. exact _.
Qed.

Lemma download_job_unfold (job : DownloadJob) (w : World) :
  download_job job w =
    if done job (fs w) then (w, Ok (job, true))
    else
      match mkdir_parents (parent (dest_path job)) (fs w) with
      | Raise e => (w, Raise e)
      | Ok t1 =>
          let w1 := add_dl_request (source_url job) (set_fs t1 w) in
          match dl_get (dl_requests w) (source_url job) with
          | Failed => (w1, Raise TransportError)
          | Responded resp => after_fetch job resp w1
          end
      end.
Proof.
  unfold download_job. destruct (done job (fs w)); [reflexivity |].
  unfold bind at 1. unfold mkdir, fs_update.
  destruct (mkdir_parents (parent (dest_path job)) (fs w)) as [t1 | e];
    [| reflexivity].
  unfold bind at 1. unfold dl_client_get. simpl dl_requests.
  destruct (dl_get (dl_requests w) (source_url job)); reflexivity.
Qed.

(** One job: files stay files, no usage error, and at most one request,
    sent only when the job was not done. *)
Lemma download_job_step (job : DownloadJob) (w : World) :
  files_persist (fs w) (fs (fst (download_job job w)))
  /\ no_usage_error (snd (download_job job w))
  /\ (dl_requests (fst (download_job job w)) = dl_requests w
      \/ (dl_requests (fst (download_job job w)) = dl_requests w ++ [source_url job]
          /\ done job (fs w) = false)).
Proof.
  rewrite download_job_unfold. destruct (done job (fs w)) eqn:Hdone.
  { split; [apply files_persist_refl |]. split; [exact I | left; reflexivity]. }
  pose proof (mkdir_below_no_usage_error (parent (dest_path job)) [] (fs w)) as Hres.
  fold (mkdir_parents (parent (dest_path job)) (fs w)) in Hres.
  destruct (mkdir_parents (parent (dest_path job)) (fs w)) as [t1 | e] eqn:Hmk.
  2: { split; [apply files_persist_refl |]. split; [exact Hres | left; reflexivity]. }
  assert (Hf : files_persist (fs w) t1)
    by (intros q; apply (mkdir_parents_is_file _ _ _ q Hmk)).
  cbv zeta.
  destruct (dl_get (dl_requests w) (source_url job)) as [resp |].
  2: { split; [exact Hf |]. split; [exact I |]. right. split; reflexivity. }
  destruct (respects_after_fetch build_step job resp
              (add_dl_request (source_url job) (set_fs t1 w))) as [[Hf' Hdl'] Hres'].
  split; [eapply files_persist_trans; [exact Hf | exact Hf'] |].
  split; [exact Hres' |]. right. split; [| reflexivity].
  rewrite Hdl'. reflexivity.
Qed.

Lemma run_jobs_cons (job : DownloadJob) (rest : list DownloadJob) (w : World) :
  run_jobs (job :: rest) w =
    match download_job job w with
    | (w1, Ok result) =>
        bind (run_jobs rest) (fun results => ret (result :: results)) w1
    | (w1, Raise e) => (w1, Raise e)
    end.
Proof. reflexivity. Qed.

(** The loop over the jobs: the requests it sends are those of jobs of
    the list that were not done when the loop began. *)
Lemma run_jobs_fetched (jobs : list DownloadJob) :
  forall w,
    files_persist (fs w) (fs (fst (run_jobs jobs w)))
    /\ no_usage_error (snd (run_jobs jobs w))
    /\ exists fetched,
         dl_requests (fst (run_jobs jobs w)) =
           dl_requests w ++ map source_url fetched
         /\ forall job, In job fetched ->
              In job jobs /\ is_file (fs w) (dest_path job) = false.
Proof.
  induction jobs as [|job rest IH]; intros w.
  - split; [apply files_persist_refl |]. split; [exact I |].
    exists []. split; [symmetry; apply app_nil_r | intros job []].
  - rewrite run_jobs_cons.
    destruct (download_job_step job w) as (Hf & Hres & Hdl).
    destruct (download_job job w) as [w1 [result | e]]; simpl in Hf, Hres, Hdl.
    + destruct (IH w1) as (Hf' & Hres' & fetched & Hdl' & Hin).
      rewrite bind_ret_fst.
      assert (Hresult := proj2 (bind_ret_no_usage_error (run_jobs rest)
                                  (fun results => result :: results) w1) Hres').
      split; [eapply files_persist_trans; eassumption |].
      split; [exact Hresult |].
      assert (Hlater : forall j, In j fetched ->
                In j (job :: rest) /\ is_file (fs w) (dest_path j) = false).
      { intros j Hj. destruct (Hin j Hj) as [Hj1 Hj2]. split; [right; exact Hj1 |].
        destruct (is_file (fs w) (dest_path j)) eqn:Hfile; [| reflexivity].
        rewrite (Hf _ Hfile) in Hj2. discriminate. }
      destruct Hdl as [Hsame | [Hsent Hdone]].
      * exists fetched. split; [rewrite Hdl', Hsame; reflexivity | exact Hlater].
      * exists (job :: fetched). split.
        -- rewrite Hdl', Hsent, <- app_assoc. reflexivity.
        -- intros j [<- | Hj]; [split; [left; reflexivity | exact Hdone] |].
           apply Hlater, Hj.
    + simpl. split; [exact Hf |]. split; [exact Hres |].
      destruct Hdl as [Hsame | [Hsent Hdone]].
      * exists []. split; [rewrite Hsame; symmetry; apply app_nil_r | intros j []].
      * exists [job]. split; [exact Hsent |].
        intros j [<- | []]. split; [left; reflexivity | exact Hdone].
Qed.

Lemma download_remaining_unfold (jobs : list DownloadJob) (w : World) :
  download_remaining jobs w =
    let todo := remaining_jobs jobs (fs w) in
    let w2 :=
      add_log INFO (py_decimal (Z.of_nat (length todo)) ++ py " jobs to do.")
        (add_log INFO
           (py_decimal (Z.of_nat (length jobs))
              ++ py " download jobs, seeing what remains to be done...") w) in
    match todo with
    | [] => (w2, Ok tt)
    | _ => bind (run_jobs todo) (fun _ => ret tt) w2
    end.
Proof.
  unfold download_remaining, bind, log_info, ret. cbn [fs add_log].
  destruct (remaining_jobs jobs (fs w)); reflexivity.
Qed.

(** The end of [main]: the requests it sends are those of jobs the
    filter has kept. *)
Lemma download_remaining_fetched (jobs : list DownloadJob) (w : World) :
  files_persist (fs w) (fs (fst (download_remaining jobs w)))
  /\ no_usage_error (snd (download_remaining jobs w))
  /\ exists fetched,
       dl_requests (fst (download_remaining jobs w)) =
         dl_requests w ++ map source_url fetched
       /\ forall job, In job fetched -> In job (remaining_jobs jobs (fs w)).
Proof.
  rewrite download_remaining_unfold. cbv zeta.
  set (todo := remaining_jobs jobs (fs w)).
  set (w2 := add_log INFO _ (add_log INFO _ w)).
  assert (Hfs : fs w2 = fs w) by reflexivity.
  assert (Hdlw : dl_requests w2 = dl_requests w) by reflexivity.
  clearbody w2.
  destruct (run_jobs_fetched todo w2) as (Hf & Hres & fetched & Hdl & Hin).
  rewrite Hfs in Hf. rewrite Hdlw in Hdl.
  destruct todo as [|job rest] eqn:Htodo.
  - split; [rewrite <- Hfs; apply files_persist_refl |]. split; [exact I |].
    exists []. split; [simpl; rewrite Hdlw; symmetry; apply app_nil_r | intros job []].
  - rewrite (bind_ret_fst (run_jobs (job :: rest)) (fun _ => tt) w2).
    split; [exact Hf |].
    split; [apply (bind_ret_no_usage_error (run_jobs (job :: rest)) (fun _ => tt) w2);
            exact Hres |].
    exists fetched. split; [exact Hdl |].
    intros j Hj. apply (Hin j Hj).
Qed.

Lemma main_unfold (token_from_env : option str) (args : Args) (w : World) :
  main token_from_env args w =
    if negb (token_given token_from_env) then
      (w, Raise (UsageError (py "DISCORD_USER_TOKEN is required")))
    else
      match select_guilds args with
      | Raise e => (w, Raise e)
      | Ok guilds_gen =>
          match guilds_gen w with
          | (w1, Raise e) => (w1, Raise e)
          | (w1, Ok guilds) =>
              match collect_jobs [py "download"] guilds [] w1 with
              | (w2, Raise e) => (w2, Raise e)
              | (w2, Ok jobs) => download_remaining jobs w2
              end
          end
      end.
Proof.
  unfold main. destruct (negb (token_given token_from_env)); [reflexivity |].
  unfold bind at 1. unfold lift.
  destruct (select_guilds args) as [g | e]; reflexivity.
Qed.

Lemma remaining_jobs_In (jobs : list DownloadJob) (t : gmap path node)
    (job : DownloadJob) :
  In job (remaining_jobs jobs t) <-> In job jobs /\ done job t = false.
Proof.
  unfold remaining_jobs. rewrite filter_In, negb_true_iff. reflexivity.
Qed.

Lemma done_iff_file (job : DownloadJob) (t : gmap path node) :
  done job t = true <-> exists data, node_at t (dest_path job) = Some (File data).
Proof.
  unfold done, is_file. destruct (node_at t (dest_path job)) as [[data |] |].
  - split; [eauto | reflexivity].
  - split; [discriminate | intros [data Hd]; discriminate].
  - split; [discriminate | intros [data Hd]; discriminate].
Qed.

(** A run of [main]: files stay files until the filter, and the requests
    of the download client are those of jobs that were not done when the
    run began. *)
Lemma main_fetched (token_from_env : option str) (args : Args) (w : World) :
  exists fetched,
    dl_requests (fst (main token_from_env args w)) =
      dl_requests w ++ map source_url fetched
    /\ forall job, In job fetched -> done job (fs w) = false.
Proof.
  rewrite main_unfold.
  assert (Hnone : forall w' : World, dl_requests w' = dl_requests w ->
            exists fetched : list DownloadJob,
              dl_requests w' = dl_requests w ++ map source_url fetched
              /\ forall job, In job fetched -> done job (fs w) = false).
  { intros w' Hw'. exists []. split; [rewrite Hw'; symmetry; apply app_nil_r |].
    intros job []. }
  destruct (negb (token_given token_from_env)); [apply Hnone; reflexivity |].
  destruct (select_guilds args) as [g | e] eqn:Hsel; [| apply Hnone; reflexivity].
  destruct (build_step_collect_jobs args g w Hsel) as [[Hf1 Hd1] Hcollect].
  destruct (g w) as [w1 [steps | e]]; simpl in Hf1, Hd1, Hcollect;
    [| apply Hnone; exact Hd1].
  destruct (Hcollect steps [py "download"] [] w1 eq_refl) as [Hf2 Hd2].
  destruct (collect_jobs [py "download"] steps [] w1) as [w2 [jobs | e]];
    simpl in Hf2, Hd2; [| apply Hnone; simpl; rewrite Hd2; exact Hd1].
  destruct (download_remaining_fetched jobs w2) as (_ & _ & fetched & Hdl & Hin).
  exists fetched. split; [rewrite Hdl, Hd2, Hd1; reflexivity |].
  intros job Hjob. apply Hin, remaining_jobs_In in Hjob as [_ Hnot].
  unfold done in *. destruct (is_file (fs w) (dest_path job)) eqn:Hfile; [| reflexivity].
  rewrite (Hf2 _ (Hf1 _ Hfile)) in Hnot. discriminate.
Qed.

(** C1: the filter returns exactly the jobs of the gathered list whose
    [done] is false, in the order of the list, a job being [done] exactly
    when a file exists at its [dest_path]. So a job whose file was there
    before the run is not in the filtered work set (files stay files
    while the catalogue is enumerated and the jobs are built), the
    requests of the download client are those of jobs of the filtered
    set, and over a whole run of [main] no request is sent for a job
    whose file existed when the run began. *)
Theorem remaining_jobs_excludes_done :
  (forall jobs t job,
     In job (remaining_jobs jobs t) <-> In job jobs /\ done job t = false)
  /\ (forall jobs t, sublist (remaining_jobs jobs t) jobs)
  /\ (forall job t,
        done job t = true <->
        exists data, node_at t (dest_path job) = Some (File data))
  /\ (forall args guilds_gen guilds jobs job (w0 w1 w2 : World),
        select_guilds args = Ok guilds_gen ->
        guilds_gen w0 = (w1, Ok guilds) ->
        collect_jobs [py "download"] guilds [] w1 = (w2, Ok jobs) ->
        done job (fs w0) = true ->
        ~ In job (remaining_jobs jobs (fs w2)))
  /\ (forall jobs (w : World),
        exists fetched,
          dl_requests (fst (download_remaining jobs w)) =
            dl_requests w ++ map source_url fetched
          /\ forall job, In job fetched -> In job (remaining_jobs jobs (fs w)))
  /\ (forall token_from_env args (w : World),
        exists fetched,
          dl_requests (fst (main token_from_env args w)) =
            dl_requests w ++ map source_url fetched
          /\ forall job, In job fetched -> done job (fs w) = false).
Proof.
  split; [exact remaining_jobs_In |].
  split; [intros jobs t; apply filter_sublist |].
  split; [exact done_iff_file |].
  split; [| split].
  - intros args g steps jobs job w0 w1 w2 Hsel Hgen Hcollect Hdone Hin.
    destruct (build_step_collect_jobs args g w0 Hsel) as [[Hf1 _] Hsteps].
    rewrite Hgen in Hf1, Hsteps. simpl in Hf1, Hsteps.
    destruct (Hsteps steps [py "download"] [] w1 eq_refl) as [Hf2 _].
    rewrite Hcollect in Hf2. simpl in Hf2.
    apply remaining_jobs_In in Hin as [_ Hnot].
    unfold done in *. rewrite (Hf2 _ (Hf1 _ Hdone)) in Hnot. discriminate.
  - intros jobs w.
    destruct (download_remaining_fetched jobs w) as (_ & _ & Hfetched).
    exact Hfetched.
  - exact main_fetched.
Qed.

Lemma select_guilds_unselected (args : Args) :
  my_guilds args = false ->
  given (guild_ids args) = false ->
  given (source_emoji_ids args) = false ->
  select_guilds args =
    Raise (UsageError (py "Don't know where to get emojis from")).
Proof. intros Hm Hg Hs. unfold select_guilds. rewrite Hm, Hg, Hs. reflexivity. Qed.

Lemma select_guilds_selected (args : Args) :
  my_guilds args = true \/ given (guild_ids args) = true
  \/ given (source_emoji_ids args) = true ->
  exists guilds_gen, select_guilds args = Ok guilds_gen.
Proof.
  unfold select_guilds. intros Hsel.
  destruct (my_guilds args); [eauto |].
  destruct (given (guild_ids args)); [eauto |].
  destruct (given (source_emoji_ids args)); [eauto |].
  destruct Hsel as [? | [? | ?]]; discriminate.
Qed.

(** C9, as the code has it, for arguments the parser has accepted: when
    [DISCORD_USER_TOKEN] is missing or empty, or none of the three
    selectors is given, [main] reports a usage error before it touches
    anything. When the token is set and one or more selectors are given
    it reports no usage error: the selectors are tried in the order
    [--my-guilds], [--guild-id], [--source-emoji-id], the first one given
    decides, and the ones after it are ignored. *)
Theorem main_selector_precedence (token_from_env : option str) (args : Args)
    (w : World) :
  (token_given token_from_env = false ->
   main token_from_env args w =
     (w, Raise (UsageError (py "DISCORD_USER_TOKEN is required"))))
  /\ (my_guilds args = false ->
      given (guild_ids args) = false ->
      given (source_emoji_ids args) = false ->
      exists message, main token_from_env args w = (w, Raise (UsageError message)))
  /\ (token_given token_from_env = true ->
      my_guilds args = true \/ given (guild_ids args) = true
      \/ given (source_emoji_ids args) = true ->
      no_usage_error (snd (main token_from_env args w)))
  /\ (my_guilds args = true ->
      main token_from_env args w =
        main token_from_env
          {| guild_ids := None; source_emoji_ids := None; my_guilds := true |} w)
  /\ (my_guilds args = false ->
      given (guild_ids args) = true ->
      main token_from_env args w =
        main token_from_env
          {| guild_ids := guild_ids args; source_emoji_ids := None;
             my_guilds := false |} w).
Proof.
  split; [| split; [| split; [| split]]].
  - intros Htoken. rewrite main_unfold, Htoken. reflexivity.
  - intros Hm Hg Hs. rewrite main_unfold.
    destruct (negb (token_given token_from_env)); [eauto |].
    rewrite (select_guilds_unselected args Hm Hg Hs). eauto.
  - intros Htoken Hsel. rewrite main_unfold, Htoken. simpl negb. cbv iota.
    destruct (select_guilds_selected args Hsel) as [g Hg]. rewrite Hg.
    destruct (respects_gen_select_guilds any_step args g Hg w) as [_ Hsteps].
    destruct (g w) as [w1 [steps | e]]; simpl in Hsteps; [| exact Hsteps].
    destruct (respects_collect_jobs any_step [py "download"] steps Hsteps [] w1)
      as [_ Hres].
    destruct (collect_jobs [py "download"] steps [] w1) as [w2 [jobs | e]];
      simpl in Hres; [| exact Hres].
    apply download_remaining_fetched.
  - intros Hm. rewrite !main_unfold. unfold select_guilds. simpl. rewrite Hm.
    reflexivity.
  - intros Hm Hg. rewrite !main_unfold. unfold select_guilds. simpl.
    rewrite Hm, Hg. reflexivity.
Qed.

End Phases.

(** ** The program on the small catalogue *)

(** Closes an equation between closed terms by evaluating both sides. *)
Ltac evaluated :=
  lazymatch goal with
  | |- _ = ?rhs => vm_cast_no_check (@eq_refl _ rhs)
  end.

Lemma download_job_done_short_circuits_witness :
  done parrot_job parrot_file_tree = true
  /\ @download_job canned_services parrot_job (world_of parrot_file_tree) =
       (world_of parrot_file_tree, Ok (parrot_job, true)).
Proof.
  assert (Hdone : done parrot_job (fs (world_of parrot_file_tree)) = true)
    by evaluated.
  split; [exact Hdone |].
  exact (proj1 (download_job_done_short_circuits (services := canned_services)
                  parrot_job (world_of parrot_file_tree) Hdone)).
Defined.

Lemma download_job_not_found_is_soft_witness :
  @download_job canned_services foobarbaz_job (world_of ∅) =
    (add_log WARNING (py "Not found: My Guild!:foo/bar:baz")
       (add_dl_request (source_url foobarbaz_job)
          (set_fs emoji_dir_tree (world_of ∅))),
     Ok (foobarbaz_job, false)).
Proof.
  refine (proj1 (download_job_not_found_is_soft (services := canned_services)
                   foobarbaz_job (world_of ∅) emoji_dir_tree (a_response 404 None)
                   _ _ _ _)); evaluated.
Defined.

Lemma download_job_raises_iff_witness :
  @download_job canned_services broken_job (world_of ∅) =
    (add_dl_request (source_url broken_job) (set_fs sticker_dir_tree (world_of ∅)),
     Raise (HTTPStatusError 500))
  /\ raises (@download_job canned_services parrot_job) (world_of parrot_dir_tree).
Proof.
  split.
  - refine (proj1 (proj1 (download_job_raises_iff (services := canned_services)
                            broken_job (world_of ∅) sticker_dir_tree
                            (a_response 500 None) _ _ _) _));
      evaluated.
  - refine (proj2 (proj2 (download_job_raises_iff (services := canned_services)
                            parrot_job (world_of parrot_dir_tree) parrot_dir_tree
                            (a_response 200 None) _ _ _)) _ _);
      evaluated.
Defined.

(** The fetch answers 200, and the job raises all the same: a directory
    stands at its [dest_path]. *)
Lemma download_job_raises_on_directory :
  done parrot_job (fs (world_of parrot_dir_tree)) = false
  /\ @dl_get canned_services (dl_requests (world_of parrot_dir_tree))
       (source_url parrot_job) = Responded (a_response 200 None)
  /\ fatal_status (a_response 200 None) = false
  /\ snd (@download_job canned_services parrot_job (world_of parrot_dir_tree)) =
       Raise (OSError IsADirectoryError)
  /\ ~ (raises (@download_job canned_services parrot_job) (world_of parrot_dir_tree)
        <-> fatal_status (a_response 200 None) = true).
Proof.
  assert (Hrun : snd (@download_job canned_services parrot_job
                        (world_of parrot_dir_tree)) =
                 Raise (OSError IsADirectoryError)) by evaluated.
  repeat split; try (evaluated); try exact Hrun.
  intros [Hraises _].
  assert (Hfatal : fatal_status (a_response 200 None) = true)
    by (apply Hraises; eexists; exact Hrun).
  vm_compute in Hfatal. discriminate.
Qed.

Lemma get_downloads_from_guild_info_one_job_per_asset_witness :
  exists jobs,
    snd (@get_downloads_from_guild_info latin_isalnum canned_services
           [py "download"] (JObj guild_detail) (world_of ∅)) = Ok jobs
    /\ length jobs = 3%nat
    /\ map dest_path jobs =
         [emoji_dir ++ [py "party parrot.gif"];
          emoji_dir ++ [py "foobarbaz.png"];
          [py "download"; py "My Guild"; py "stickers"; py "wave.png"]].
Proof.
  destruct (get_downloads_from_guild_info_one_job_per_asset
              (unicode := latin_isalnum) (services := canned_services)
              [py "download"] guild_detail (py "My Guild!")
              [an_emoji "1" "party parrot" true; an_emoji "2" "foo/bar:baz" false]
              [a_sticker "3" "wave"] (world_of ∅) guild_dir_tree
              (<[snapshot_path := File (map (fun c => default Byte.x3f (Byte.of_N c))
                                          (py "{}"))]> guild_dir_tree))
    as (jobs & Hrun & Hlen & _).
  - evaluated.
  - evaluated.
  - evaluated.
  - repeat constructor.
    + exists (py "party parrot"), (JBool true).
      split; [evaluated | split; [evaluated | exists (JStr (py "1")); evaluated]].
    + exists (py "foo/bar:baz"), (JBool false).
      split; [evaluated | split; [evaluated | exists (JStr (py "2")); evaluated]].
  - repeat constructor. exists (py "wave").
    split; [evaluated | exists (JStr (py "3")); evaluated].
  - evaluated.
  - evaluated.
  - exists jobs. rewrite Hrun. split; [reflexivity |]. split; [exact Hlen |].
    assert (Hjobs : Ok jobs =
              snd (@get_downloads_from_guild_info latin_isalnum canned_services
                     [py "download"] (JObj guild_detail) (world_of ∅)))
      by (rewrite Hrun; reflexivity).
    vm_compute in Hjobs. injection Hjobs as ->. evaluated.
Defined.

Lemma get_downloads_from_guild_info_rewrites_snapshot_witness :
  node_at earlier_run_tree snapshot_path = Some (File png_payload)
  /\ node_at
       (fs (fst (@get_downloads_from_guild_info latin_isalnum canned_services
                   [py "download"] (JObj guild_detail) (world_of earlier_run_tree))))
       snapshot_path
     = Some (File (@encode_text canned_services
                     (@json_dumps canned_services true (Some 2%nat)
                        (JObj guild_detail)))).
Proof.
  split; [evaluated |].
  refine (proj2 (get_downloads_from_guild_info_rewrites_snapshot
                   (unicode := latin_isalnum) (services := canned_services)
                   [py "download"] guild_detail (py "My Guild!")
                   (world_of earlier_run_tree) earlier_run_tree _ _ _)); evaluated.
Defined.

Lemma get_my_guilds_info_merges_summary_and_detail_witness :
  @my_guild_info canned_services (JObj guild_summary) (world_of ∅) =
    (add_api_request (py "https://discord.com/api/v10/guilds/42") (world_of ∅),
     Ok (JObj (dict_or guild_summary guild_detail)))
  /\ dict_lookup (py "name") (dict_or guild_summary guild_detail) =
       Some (JStr (py "My Guild!"))
  /\ dict_lookup (py "owner") (dict_or guild_summary guild_detail) =
       Some (JBool true).
Proof.
  split; [| split; evaluated].
  refine (proj1 (get_my_guilds_info_merges_summary_and_detail
                   (services := canned_services)
                   guild_summary guild_detail (JStr (py "42"))
                   (a_response 200 (Some (JObj guild_detail))) (world_of ∅)
                   _ _ _ _)); evaluated.
Defined.

Lemma main_selector_precedence_witness :
  @main latin_isalnum canned_services None two_selectors (world_of ∅) =
    (world_of ∅, Raise (UsageError (py "DISCORD_USER_TOKEN is required")))
  /\ (exists message,
        @main latin_isalnum canned_services (Some (py "token")) no_selector
          (world_of ∅) = (world_of ∅, Raise (UsageError message)))
  /\ no_usage_error
       (snd (@main latin_isalnum canned_services (Some (py "token")) two_selectors
               (world_of ∅))).
Proof.
  split; [| split].
  - apply (proj1 (main_selector_precedence (unicode := latin_isalnum)
                    (services := canned_services) None two_selectors (world_of ∅))).
    reflexivity.
  - apply (proj1 (proj2 (main_selector_precedence (unicode := latin_isalnum)
                           (services := canned_services) (Some (py "token"))
                           no_selector (world_of ∅)))); reflexivity.
  - apply (proj1 (proj2 (proj2 (main_selector_precedence (unicode := latin_isalnum)
                                  (services := canned_services) (Some (py "token"))
                                  two_selectors (world_of ∅)))));
      [reflexivity |].
    left. reflexivity.
Defined.

(** Two selectors on the command line: [main] reports no usage error,
    takes the caller's own guilds, asks the API and downloads. *)
Lemma main_runs_with_two_selectors :
  my_guilds two_selectors = true
  /\ given (guild_ids two_selectors) = true
  /\ snd (@main latin_isalnum canned_services (Some (py "token")) two_selectors
            (world_of ∅)) = Ok tt
  /\ api_requests
       (fst (@main latin_isalnum canned_services (Some (py "token")) two_selectors
               (world_of ∅))) =
       [py "https://discord.com/api/v10/users/@me/guilds";
        py "https://discord.com/api/v10/guilds/42"]
  /\ ~ (exists message,
          snd (@main latin_isalnum canned_services (Some (py "token")) two_selectors
                 (world_of ∅)) = Raise (UsageError message)).
Proof.
  assert (Hrun : snd (@main latin_isalnum canned_services (Some (py "token"))
                        two_selectors (world_of ∅)) = Ok tt) by evaluated.
  split; [reflexivity |]. split; [reflexivity |]. split; [exact Hrun |].
  split; [evaluated |].
  intros [message Hmessage]. rewrite Hrun in Hmessage. discriminate.
Qed.

(** * Further properties of the program *)

(** ** Sanitized names *)

Lemma drop_while_nil_iff {A} (p : A -> bool) (l : list A) :
  drop_while p l = [] <-> Forall (fun x => p x = true) l.
Proof.
  induction l as [|x l IH]; simpl.
  - split; [constructor | reflexivity].
  - destruct (p x) eqn:Hx.
    + rewrite IH. split; [intros Hl; constructor; assumption |].
      intros Hl. inversion Hl. assumption.
    + split; [discriminate |]. intros Hl. inversion Hl. congruence.
Qed.

Lemma strip_nil_iff (s : str) :
  strip s = [] <-> Forall (fun c => isspace c = true) s.
Proof.
  split.
  - intros Hs. destruct (strip_split s) as (pre & suf & Heq & Hpre & Hsuf).
    rewrite Hs in Heq. rewrite Heq. apply Forall_app. split; assumption.
  - intros Hs. unfold strip, lstrip.
    rewrite (proj2 (drop_while_nil_iff isspace s) Hs). reflexivity.
Qed.

Lemma strip_fixed (s : str) :
  (forall c, head s = Some c -> isspace c = false) ->
  (forall c, last s = Some c -> isspace c = false) ->
  strip s = s.
Proof.
  intros Hhead Hlast. unfold strip, lstrip.
  rewrite (drop_while_fixed isspace s Hhead). apply rstrip_fixed, Hlast.
Qed.

Lemma Forall_filter_iff {A} (p q : A -> bool) (l : list A) :
  Forall (fun x => q x = true) (List.filter p l) <->
  Forall (fun x => p x = false \/ q x = true) l.
Proof.
  induction l as [|x l IH]; simpl.
  - split; constructor.
  - destruct (p x) eqn:Hx.
    + split; intros Hl; inversion Hl as [|? ? Hq Hrest]; subst; constructor.
      * right. exact Hq.
      * apply IH. exact Hrest.
      * destruct Hq as [Hq | Hq]; [congruence | exact Hq].
      * apply IH. exact Hrest.
    + rewrite IH. split; intros Hl.
      * constructor; [left; exact Hx | exact Hl].
      * inversion Hl. assumption.
Qed.

Section SanitizeMore.
Context `{unicode : UnicodeDB}.

(** X1: the names [clean_name_for_fs] leaves as they are, are exactly the
    strings whose characters are alphanumeric, a space (32), an underscore
    (95) or a hyphen (45) and that neither begin nor end with
    whitespace. *)
Theorem clean_name_for_fs_fixed_iff (s : str) :
  clean_name_for_fs s = s <->
  Forall (fun c => isalnum c = true \/ c = 32 \/ c = 95 \/ c = 45) s
  /\ (forall c, head s = Some c -> isspace c = false)
  /\ (forall c, last s = Some c -> isspace c = false).
Proof.
  assert (Hkeep : forall c,
            keep c = true <-> isalnum c = true \/ c = 32 \/ c = 95 \/ c = 45).
  { intros c. unfold keep, in_space_underscore_hyphen.
    rewrite !orb_true_iff, !N.eqb_eq. tauto. }
  split.
  - intros Hs.
    split; [rewrite <- Hs;
            eapply Forall_impl; [apply clean_name_for_fs_kept |];
            intros c Hc; apply Hkeep, Hc |].
    split; intros c; rewrite <- Hs; [apply strip_head | apply strip_last].
  - intros (Hallowed & Hhead & Hlast). unfold clean_name_for_fs.
    rewrite (filter_all_true keep s)
      by (eapply Forall_impl; [exact Hallowed |]; intros c Hc; apply Hkeep, Hc).
    apply strip_fixed; assumption.
Qed.

(** X2: the sanitized name is empty exactly when every character of the
    name is either removed by the filter or whitespace; a name made of
    punctuation only is such a name. *)
Theorem clean_name_for_fs_empty_iff (s : str) :
  clean_name_for_fs s = [] <->
  Forall (fun c => keep c = false \/ isspace c = true) s.
Proof.
  unfold clean_name_for_fs. rewrite strip_nil_iff. apply Forall_filter_iff.
Qed.

Lemma keep_not_special (c : char) :
  keep c = true -> c <> 0 /\ c <> 46 /\ c <> 47 /\ c <> 58 /\ c <> 92.
Proof.
  intros Hc. repeat split; intros ->; vm_compute in Hc; discriminate.
Qed.

(** X3: a sanitized name holds no NUL, dot, slash, colon or backslash, so
    it is neither ["."] nor [".."] and names one path component at most:
    it cannot lead out of the directory it is joined to. *)
Theorem clean_name_for_fs_one_component (s : str) :
  Forall (fun c => c <> 0 /\ c <> 46 /\ c <> 47 /\ c <> 58 /\ c <> 92)
    (clean_name_for_fs s)
  /\ clean_name_for_fs s <> py "."
  /\ clean_name_for_fs s <> py "..".
Proof.
  assert (Hall : Forall (fun c => c <> 0 /\ c <> 46 /\ c <> 47 /\ c <> 58 /\ c <> 92)
                   (clean_name_for_fs s)).
  { eapply Forall_impl; [apply clean_name_for_fs_kept |].
    intros c. apply keep_not_special. }
  split; [exact Hall |].
  split; intros Heq; rewrite Heq in Hall; inversion Hall as [|? ? Hc _]; subst;
    destruct Hc as (_ & Hdot & _); apply Hdot; reflexivity.
Qed.

End SanitizeMore.

(** ** Source URLs *)

Lemma gif_or_png_length (animated : json) : length (gif_or_png animated) = 3%nat.
Proof. unfold gif_or_png. destruct (truthy animated); reflexivity. Qed.

Lemma gif_or_png_inj (x y : json) :
  gif_or_png x = gif_or_png y -> truthy x = truthy y.
Proof.
  unfold gif_or_png. destruct (truthy x), (truthy y); try reflexivity;
    intros Heq; vm_compute in Heq; discriminate.
Qed.

Section UrlFacts.
Context `{services : Services}.

(** X4: for ids that are strings, as the API sends them, the CDN address
    determines the asset: two emoji URLs are equal exactly when the ids
    are equal and both emojis or neither are animated, two sticker URLs
    exactly when the ids are equal, and an emoji URL never is a sticker
    URL. *)
Theorem source_urls_determine_the_asset (a b : str) (x y : json) :
  (get_emoji_url (JStr a) x = get_emoji_url (JStr b) y <->
   a = b /\ truthy x = truthy y)
  /\ (get_sticker_url (JStr a) = get_sticker_url (JStr b) <-> a = b)
  /\ get_emoji_url (JStr a) x <> get_sticker_url (JStr b).
Proof.
  split; [| split].
  - unfold get_emoji_url, format_value. split.
    + intros Heq. apply app_inv_head in Heq.
      apply app_inj_2 in Heq as [Hab Hext].
      * split; [exact Hab |]. apply app_inv_head in Hext.
        apply app_inv_tail in Hext. apply gif_or_png_inj, Hext.
      * rewrite !length_app, !gif_or_png_length. reflexivity.
    + intros [-> Hxy]. unfold gif_or_png. rewrite Hxy. reflexivity.
  - unfold get_sticker_url, format_value. split.
    + intros Heq. apply app_inv_head in Heq. apply app_inv_tail in Heq. exact Heq.
    + intros ->. reflexivity.
  - unfold get_emoji_url, get_sticker_url. intros Heq.
    apply (f_equal (fun url => url !! 8%nat)) in Heq.
    vm_compute in Heq. discriminate.
Qed.

End UrlFacts.

(** ** More on the job builder *)

Lemma yield_each_inv {A} (f : A -> res DownloadJob) (items : list A) :
  forall jobs,
    yield_each f items = Ok jobs -> Forall2 (fun x job => f x = Ok job) items jobs.
Proof.
  induction items as [|x items IH]; simpl; intros jobs.
  - intros [= <-]. constructor.
  - destruct (f x) as [job | e] eqn:Hx; [| discriminate].
    destruct (yield_each f items) as [rest | e]; [| discriminate].
    intros [= <-]. constructor; [exact Hx | apply IH; reflexivity].
Qed.

Lemma yield_each_raises {A} (f : A -> res DownloadJob) (items : list A) :
  Exists (fun x => exists e, f x = Raise e) items ->
  exists e, yield_each f items = Raise e.
Proof.
  induction 1 as [x items [e Hx] | x items _ [e IH]]; simpl.
  - rewrite Hx. eauto.
  - destruct (f x) as [job | e']; [| eauto]. rewrite IH. eauto.
Qed.

Section BuilderMore.
Context `{unicode : UnicodeDB} `{services : Services}.

Lemma emoji_job_inv (guild_name : json) (emoji_path : path) (emoji : json)
    (job : DownloadJob) :
  emoji_job guild_name emoji_path emoji = Ok job ->
  exists name animated emoji_id,
    py_getitem emoji (py "animated") = Ok animated
    /\ py_getitem emoji (py "name") = Ok (JStr name)
    /\ py_getitem emoji (py "id") = Ok emoji_id
    /\ job = {| description := format_value guild_name ++ py ":" ++ name;
                source_url := get_emoji_url emoji_id animated;
                dest_path :=
                  path_div emoji_path
                    (clean_name_for_fs name ++ py "." ++ gif_or_png animated) |}.
Proof.
  unfold emoji_job.
  destruct (py_getitem emoji (py "animated")) as [animated | e]; [| discriminate].
  destruct (py_getitem emoji (py "name")) as [name | e]; [| discriminate].
  destruct (py_getitem emoji (py "id")) as [emoji_id | e]; [| discriminate].
  destruct name; try discriminate. unfold as_str. intros [= <-].
  eexists _, _, _. repeat split; reflexivity.
Qed.

Lemma sticker_job_inv (guild_name : json) (sticker_path : path) (sticker : json)
    (job : DownloadJob) :
  sticker_job guild_name sticker_path sticker = Ok job ->
  exists name sticker_id,
    py_getitem sticker (py "name") = Ok (JStr name)
    /\ py_getitem sticker (py "id") = Ok sticker_id
    /\ job = {| description := format_value guild_name ++ py ":" ++ name;
                source_url := get_sticker_url sticker_id;
                dest_path :=
                  path_div sticker_path (clean_name_for_fs name ++ py ".png") |}.
Proof.
  unfold sticker_job.
  destruct (py_getitem sticker (py "name")) as [name | e]; [| discriminate].
  destruct (py_getitem sticker (py "id")) as [sticker_id | e]; [| discriminate].
  destruct name; try discriminate. unfold as_str. intros [= <-].
  eexists _, _. repeat split; reflexivity.
Qed.

(** Where the jobs of the two loops go: two levels below the directory of
    the guild, in a file with a [png] or [gif] extension. *)
Lemma yield_jobs_dest (guild_path : path) (guild guild_name : json)
    (jobs : list DownloadJob) :
  yield_jobs guild_path guild guild_name = Ok jobs ->
  Forall (fun job =>
            exists kind name ext,
              dest_path job = guild_path ++ [kind; clean_name_for_fs name ++ py "." ++ ext]
              /\ (kind = py "emojis" \/ kind = py "stickers")
              /\ (ext = py "png" \/ ext = py "gif")) jobs.
Proof.
  unfold yield_jobs.
  destruct (get_items guild (py "emojis")) as [emojis | e]; [| discriminate].
  destruct (yield_each _ emojis) as [emoji_jobs | e] eqn:He; [| discriminate].
  destruct (get_items guild (py "stickers")) as [stickers | e]; [| discriminate].
  destruct (yield_each _ stickers) as [sticker_jobs | e] eqn:Hs; [| discriminate].
  intros [= <-]. apply Forall_app. split.
  - apply yield_each_inv in He. clear Hs.
    induction He as [|emoji job emojis' jobs' Hjob _ IH]; constructor; [| exact IH].
    apply emoji_job_inv in Hjob as (name & animated & emoji_id & _ & _ & _ & ->).
    exists (py "emojis"), name, (gif_or_png animated). cbn [dest_path].
    rewrite path_div_file
      by (unfold gif_or_png; destruct (truthy animated); discriminate).
    change (path_div guild_path (py "emojis")) with (guild_path ++ [py "emojis"]).
    rewrite <- app_assoc. split; [reflexivity |]. split; [left; reflexivity |].
    unfold gif_or_png. destruct (truthy animated); [right | left]; reflexivity.
  - apply yield_each_inv in Hs. clear He.
    induction Hs as [|sticker job stickers' jobs' Hjob _ IH]; constructor; [| exact IH].
    apply sticker_job_inv in Hjob as (name & sticker_id & _ & _ & ->).
    exists (py "stickers"), name, (py "png"). cbn [dest_path].
    change (py ".png") with (py "." ++ py "png").
    rewrite path_div_file by discriminate.
    change (path_div guild_path (py "stickers")) with (guild_path ++ [py "stickers"]).
    rewrite <- app_assoc. split; [reflexivity |]. split; [right; reflexivity |].
    left; reflexivity.
Qed.

(** What a run of the builder that returns has done. *)
Lemma get_downloads_from_guild_info_inv (root_path : path) (guild : json)
    (w w' : World) (jobs : list DownloadJob) :
  get_downloads_from_guild_info root_path guild w = (w', Ok jobs) ->
  exists kvs guild_name t1 t2,
    guild = JObj kvs
    /\ dict_lookup (py "name") kvs = Some (JStr guild_name)
    /\ mkdir_parents (path_div root_path (clean_name_for_fs guild_name)) (fs w) = Ok t1
    /\ write_file
         (path_div root_path (clean_name_for_fs guild_name) ++ [py "info.json"])
         (encode_text (json_dumps true (Some 2%nat) guild)) t1 = Ok t2
    /\ w' = set_fs t2 w
    /\ yield_jobs (path_div root_path (clean_name_for_fs guild_name)) guild
         (JStr guild_name) = Ok jobs.
Proof.
  unfold get_downloads_from_guild_info, bind, lift, mkdir, write_bytes, fs_update.
  destruct guild as [| | | | |l|kvs]; try discriminate. simpl py_getitem.
  destruct (dict_lookup (py "name") kvs) as [name |] eqn:Hname; [| discriminate].
  destruct name as [| | | |guild_name| |]; try discriminate. unfold as_str.
  destruct (mkdir_parents _ (fs w)) as [t1 | e] eqn:Hmk; [| discriminate].
  cbn [fs set_fs].
  change (path_div (path_div root_path (clean_name_for_fs guild_name)) (py "info.json"))
    with (path_div root_path (clean_name_for_fs guild_name) ++ [py "info.json"]).
  destruct (write_file _ _ t1) as [t2 | e] eqn:Hwrite; [| discriminate].
  intros [= <- Hjobs].
  exists kvs, guild_name, t1, t2. repeat split; try assumption; reflexivity.
Qed.

Lemma asset_file_name (name ext : str) :
  ext = py "png" \/ ext = py "gif" ->
  Forall (fun c => c <> 47) (clean_name_for_fs name ++ py "." ++ ext)
  /\ clean_name_for_fs name ++ py "." ++ ext <> py ".."
  /\ clean_name_for_fs name ++ py "." ++ ext <> py "info.json".
Proof.
  intros Hext. split; [| split].
  - apply Forall_app. split.
    + eapply Forall_impl; [apply clean_name_for_fs_kept |].
      intros c Hc. apply keep_not_special in Hc. tauto.
    + destruct Hext as [-> | ->]; repeat constructor; discriminate.
  - intros Heq. apply (f_equal (@length char)) in Heq.
    assert (Hlen : length ext = 3%nat) by (destruct Hext as [-> | ->]; reflexivity).
    rewrite !length_app, Hlen in Heq.
    change (length (py ".")) with 1%nat in Heq.
    change (length (py "..")) with 2%nat in Heq. lia.
  - intros Heq. apply (f_equal last) in Heq. rewrite !last_app in Heq.
    destruct Hext as [-> | ->]; vm_compute in Heq; discriminate.
Qed.

(** X5: every job the builder returns has its [dest_path] exactly two
    levels below the directory of the guild, in [emojis] or [stickers];
    the file name holds no separator and is not [".."], and it never is
    [info.json]: no download can land outside the directory of its guild
    or on a metadata snapshot. *)
Theorem get_downloads_from_guild_info_layout (root_path : path) (guild : json)
    (w w' : World) (jobs : list DownloadJob) :
  get_downloads_from_guild_info root_path guild w = (w', Ok jobs) ->
  exists guild_name,
    py_getitem guild (py "name") = Ok (JStr guild_name)
    /\ Forall (fun job =>
                 exists kind file,
                   dest_path job =
                     path_div root_path (clean_name_for_fs guild_name) ++ [kind; file]
                   /\ (kind = py "emojis" \/ kind = py "stickers")
                   /\ Forall (fun c => c <> 47) file
                   /\ file <> py ".."
                   /\ forall q, dest_path job <> q ++ [py "info.json"]) jobs.
Proof.
  intros Hrun.
  apply get_downloads_from_guild_info_inv in Hrun
    as (kvs & guild_name & t1 & t2 & -> & Hname & _ & _ & _ & Hjobs).
  exists guild_name. split; [simpl; rewrite Hname; reflexivity |].
  eapply Forall_impl; [apply (yield_jobs_dest _ _ _ _ Hjobs) |].
  intros job (kind & name & ext & Hdest & Hkind & Hext).
  destruct (asset_file_name name ext Hext) as (Hsep & Hdots & Hinfo).
  exists kind, (clean_name_for_fs name ++ py "." ++ ext).
  split; [exact Hdest |]. split; [exact Hkind |]. split; [exact Hsep |].
  split; [exact Hdots |].
  intros q Heq. rewrite Hdest in Heq. apply (f_equal last) in Heq.
  rewrite last_snoc in Heq.
  change (path_div root_path (clean_name_for_fs guild_name)
            ++ [kind; clean_name_for_fs name ++ py "." ++ ext])
    with (path_div root_path (clean_name_for_fs guild_name)
            ++ [kind] ++ [clean_name_for_fs name ++ py "." ++ ext]) in Heq.
  rewrite app_assoc, last_snoc in Heq. injection Heq as Heq.
  exact (Hinfo Heq).
Qed.

(** X6: a record that is not a dict, or has no ["name"], or whose name is
    [null], a boolean or a number, makes the builder raise before it has
    touched anything: no directory is created and no snapshot written. The
    exception is the one of [guild["name"]] ([KeyError] for a dict without
    the key, [TypeError] for a record that is not a dict), and [TypeError]
    for such a name. *)
Theorem get_downloads_from_guild_info_needs_a_name (root_path : path)
    (guild : json) (w : World) :
  match py_getitem guild (py "name") with
  | Ok name => not_iterable name = true
  | Raise _ => True
  end ->
  get_downloads_from_guild_info root_path guild w =
    (w, Raise match py_getitem guild (py "name") with
              | Ok _ => TypeError
              | Raise e => e
              end)
  /\ (forall kvs, guild = JObj kvs -> dict_lookup (py "name") kvs = None ->
      py_getitem guild (py "name") = Raise (KeyError (py "name")))
  /\ ((forall kvs, guild <> JObj kvs) ->
      py_getitem guild (py "name") = Raise TypeError).
Proof.
  intros Hname. split; [| split].
  - unfold get_downloads_from_guild_info, bind, lift.
    destruct (py_getitem guild (py "name")) as [name | e]; [| reflexivity].
    destruct name; try discriminate Hname; reflexivity.
  - intros kvs -> Hnone. simpl. rewrite Hnone. reflexivity.
  - intros Hnot. destruct guild; try reflexivity.
    exfalso. eapply Hnot. reflexivity.
Qed.

(** X7: the snapshot is written before the assets are looked at. When a
    record of the ["emojis"] list lacks a field the loop reads, the builder
    raises and returns no job, and [info.json] holds the snapshot all the
    same. *)
Theorem get_downloads_from_guild_info_raises_after_snapshot (root_path : path)
    (kvs : list (str * json)) (guild_name : str) (emojis : list json)
    (w : World) (t1 t2 : gmap path node) :
  let guild_path := path_div root_path (clean_name_for_fs guild_name) in
  let snapshot := encode_text (json_dumps true (Some 2%nat) (JObj kvs)) in
  dict_lookup (py "name") kvs = Some (JStr guild_name) ->
  mkdir_parents guild_path (fs w) = Ok t1 ->
  write_file (guild_path ++ [py "info.json"]) snapshot t1 = Ok t2 ->
  get_items (JObj kvs) (py "emojis") = Ok emojis ->
  Exists (fun emoji =>
            exists key,
              In key [py "animated"; py "name"; py "id"]
              /\ forall v, py_getitem emoji key <> Ok v) emojis ->
  exists e,
    get_downloads_from_guild_info root_path (JObj kvs) w = (set_fs t2 w, Raise e)
    /\ node_at t2 (guild_path ++ [py "info.json"]) = Some (File snapshot).
Proof.
  intros guild_path snapshot Hname Hmk Hwrite Hemojis Hbad.
  rewrite (get_downloads_from_guild_info_steps root_path kvs guild_name w t1 t2
             Hname Hmk Hwrite).
  fold guild_path.
  assert (Hraise : exists e, yield_jobs guild_path (JObj kvs) (JStr guild_name) = Raise e).
  { unfold yield_jobs. rewrite Hemojis.
    destruct (yield_each_raises
                (emoji_job (JStr guild_name) (path_div guild_path (py "emojis")))
                emojis) as [e He]; [| rewrite He; eauto].
    eapply Exists_impl; [exact Hbad |].
    intros emoji (key & Hkey & Hmissing).
    destruct (emoji_job (JStr guild_name) (path_div guild_path (py "emojis")) emoji)
      as [job | e] eqn:Hjob; [| eauto].
    exfalso. apply emoji_job_inv in Hjob
      as (name & animated & emoji_id & Ha & Hn & Hi & _).
    destruct Hkey as [<- | [<- | [<- | []]]];
      [apply (Hmissing _ Ha) | apply (Hmissing _ Hn) | apply (Hmissing _ Hi)]. }
  destruct Hraise as [e He]. exists e. rewrite He. split; [reflexivity |].
  apply (write_file_node_at _ _ _ _ Hwrite).
Qed.

(** X8: a guild whose name sanitizes to the empty string gets no directory
    of its own: the builder writes its snapshot to [info.json] in the
    output root itself, and its jobs go to [emojis] and [stickers] right
    below the root. *)
Theorem get_downloads_from_guild_info_empty_name (root_path : path)
    (kvs : list (str * json)) (guild_name : str) (w : World)
    (t1 t2 : gmap path node) :
  let snapshot := encode_text (json_dumps true (Some 2%nat) (JObj kvs)) in
  dict_lookup (py "name") kvs = Some (JStr guild_name) ->
  clean_name_for_fs guild_name = [] ->
  mkdir_parents root_path (fs w) = Ok t1 ->
  write_file (root_path ++ [py "info.json"]) snapshot t1 = Ok t2 ->
  get_downloads_from_guild_info root_path (JObj kvs) w =
    (set_fs t2 w, yield_jobs root_path (JObj kvs) (JStr guild_name))
  /\ node_at t2 (root_path ++ [py "info.json"]) = Some (File snapshot)
  /\ forall jobs,
       yield_jobs root_path (JObj kvs) (JStr guild_name) = Ok jobs ->
       Forall (fun job =>
                 exists file,
                   dest_path job = root_path ++ [py "emojis"; file]
                   \/ dest_path job = root_path ++ [py "stickers"; file]) jobs.
Proof.
  intros snapshot Hname Hclean Hmk Hwrite.
  assert (Hpath : path_div root_path (clean_name_for_fs guild_name) = root_path)
    by (rewrite Hclean; reflexivity).
  split; [| split].
  - rewrite <- Hpath in Hmk, Hwrite.
    rewrite (get_downloads_from_guild_info_steps root_path kvs guild_name w t1 t2
               Hname Hmk Hwrite).
    rewrite Hpath. reflexivity.
  - apply (write_file_node_at _ _ _ _ Hwrite).
  - intros jobs Hjobs.
    eapply Forall_impl; [apply (yield_jobs_dest _ _ _ _ Hjobs) |].
    intros job (kind & name & ext & Hdest & [-> | ->] & _); eexists; eauto.
Qed.

End BuilderMore.

(** ** More on the executor *)

Lemma mkdir_below_blocked (parts : list str) :
  forall (base : path) (t : gmap path node) (k : nat) (data : bytes),
    (1 <= k <= length parts)%nat ->
    t !! (base ++ take k parts) = Some (File data) ->
    exists e, mkdir_below base parts t = Raise (OSError e).
Proof.
  induction parts as [|c rest IH]; intros base t k data Hk Hfile; simpl in *; [lia |].
  destruct k as [|k]; [lia |]. simpl in Hfile.
  destruct (t !! (base ++ [c])) as [[d |] |] eqn:Hq; [eauto | |].
  - destruct k as [|k].
    + rewrite take_0 in Hfile. congruence.
    + apply (IH (base ++ [c]) t (S k) data); [lia |].
      rewrite <- app_assoc. exact Hfile.
  - destruct k as [|k].
    + rewrite take_0 in Hfile. congruence.
    + apply (IH (base ++ [c]) (<[base ++ [c] := Dir]> t) (S k) data); [lia |].
      rewrite lookup_insert_ne.
      * rewrite <- app_assoc. exact Hfile.
      * intros Heq. apply (f_equal (@length str)) in Heq.
        rewrite !length_app, length_take in Heq. cbn [length] in Heq. lia.
Qed.

Lemma insert_node_at (p : path) (x : node) (t : gmap path node) :
  p <> [] ->
  node_at (<[p := x]> t) p = Some x
  /\ forall q, q <> p -> node_at (<[p := x]> t) q = node_at t q.
Proof.
  intros Hp. split.
  - destruct p; [congruence |]. apply lookup_insert_eq.
  - intros [|c q] Hne; [reflexivity |]. apply lookup_insert_ne. congruence.
Qed.

Section ExecutorMore.
Context `{services : Services}.

(** X9: a job that is not done, whose fetch answers a success and whose
    final write succeeds, is returned as a success; the file then holds
    the payload of the response, nothing else changes but the directories
    [mkdir] has created, and from then on every job with the same
    [dest_path] is skipped without a request, the job itself included. *)
Theorem download_job_writes_payload_once (job : DownloadJob) (w : World)
    (t1 t2 : gmap path node) (r : response) :
  done job (fs w) = false ->
  mkdir_parents (parent (dest_path job)) (fs w) = Ok t1 ->
  dl_get (dl_requests w) (source_url job) = Responded r ->
  is_success r = true ->
  write_file (dest_path job) (content r) t1 = Ok t2 ->
  let w' := set_fs t2 (add_dl_request (source_url job) (set_fs t1 w)) in
  download_job job w = (w', Ok (job, true))
  /\ node_at (fs w') (dest_path job) = Some (File (content r))
  /\ (forall q, q <> dest_path job ->
        node_at (fs w') q = node_at (fs w) q
        \/ (node_at (fs w) q = None /\ node_at (fs w') q = Some Dir))
  /\ forall job', dest_path job' = dest_path job ->
       download_job job' w' = (w', Ok (job', true)).
Proof.
  intros Hdone Hmk Hget Hok Hwrite w'.
  destruct (write_file_node_at _ _ _ _ Hwrite) as [Hfile Hothers].
  split; [| split; [| split]].
  - rewrite (download_job_success_write job w t1 r Hdone Hmk Hget Hok), Hwrite.
    reflexivity.
  - exact Hfile.
  - intros q Hq. simpl. rewrite (Hothers q Hq).
    apply (mkdir_parents_node_at _ _ _ q Hmk).
  - intros job' Hsame. apply download_job_skips.
    unfold done, is_file. rewrite Hsame. simpl fs. rewrite Hfile. reflexivity.
Qed.

Lemma after_fetch_world (job : DownloadJob) (r : response) (w : World) :
  dl_requests (fst (after_fetch job r w)) = dl_requests w
  /\ forall q, q <> dest_path job ->
       node_at (fs (fst (after_fetch job r w))) q = node_at (fs w) q.
Proof.
  unfold after_fetch. destruct (status_code r =? NOT_FOUND).
  { split; [reflexivity | intros q _; reflexivity]. }
  unfold bind, raise_for_status. destruct (is_success r); simpl.
  2: { split; [reflexivity | intros q _; reflexivity]. }
  unfold write_bytes, fs_update.
  destruct (write_file (dest_path job) (content r) (fs w)) as [t2 | e] eqn:Hwrite; simpl.
  - split; [reflexivity |]. apply (write_file_node_at _ _ _ _ Hwrite).
  - split; [reflexivity | intros q _; reflexivity].
Qed.

(** X10: a job that is not done sends exactly one request, whatever comes
    back, and the directory it has created for its file stays: after a
    "not found", a fatal status or a failed connection the parent of
    [dest_path] is a directory, with or without a file in it. When the
    client itself raises, that exception is the outcome. *)
Theorem download_job_leaves_parent_directory (job : DownloadJob) (w : World)
    (t1 : gmap path node) :
  done job (fs w) = false ->
  mkdir_parents (parent (dest_path job)) (fs w) = Ok t1 ->
  dl_requests (fst (download_job job w)) = dl_requests w ++ [source_url job]
  /\ is_dir (fs (fst (download_job job w))) (parent (dest_path job)) = true
  /\ (dl_get (dl_requests w) (source_url job) = Failed ->
      download_job job w =
        (add_dl_request (source_url job) (set_fs t1 w), Raise TransportError)).
Proof.
  intros Hdone Hmk.
  pose proof (mkdir_parents_is_dir _ _ _ Hmk) as Hparent.
  rewrite download_job_unfold, Hdone, Hmk. cbv zeta.
  destruct (dl_get (dl_requests w) (source_url job)) as [r |].
  - destruct (after_fetch_world job r (add_dl_request (source_url job) (set_fs t1 w)))
      as [Hdl Hfs].
    split; [rewrite Hdl; reflexivity |]. split; [| discriminate].
    unfold is_dir. destruct (dest_path job) as [|c p] eqn:Hdest; [reflexivity |].
    rewrite Hfs.
    + simpl fs. rewrite Hparent. reflexivity.
    + intros Heq. apply (f_equal (@length str)) in Heq.
      rewrite (length_parent (c :: p)) in Heq by discriminate. lia.
  - split; [reflexivity |]. split; [| reflexivity].
    unfold is_dir. simpl fs. rewrite Hparent. reflexivity.
Qed.

(** X11: when a file stands where the parent directory of [dest_path], or
    one of its ancestors, has to be, a job that is not done raises an
    [OSError] at once: no request is sent and nothing changes. *)
Theorem download_job_blocked_by_file (job : DownloadJob) (w : World)
    (q : path) (data : bytes) :
  done job (fs w) = false ->
  q <> [] ->
  q `prefix_of` parent (dest_path job) ->
  fs w !! q = Some (File data) ->
  exists e, download_job job w = (w, Raise (OSError e)).
Proof.
  intros Hdone Hq [rest Hprefix] Hfile.
  destruct (mkdir_below_blocked (parent (dest_path job)) [] (fs w) (length q) data)
    as [e He].
  - rewrite Hprefix, length_app. destruct q; [congruence | simpl; lia].
  - rewrite Hprefix, take_app_length. exact Hfile.
  - exists e. rewrite download_job_unfold, Hdone.
    unfold mkdir_parents. rewrite He. reflexivity.
Qed.

End ExecutorMore.

(** ** More on the batch and on [main] *)

Lemma remaining_jobs_all_done (jobs : list DownloadJob) (t : gmap path node) :
  Forall (fun job => done job t = true) jobs -> remaining_jobs jobs t = [].
Proof.
  induction 1 as [|job jobs Hjob _ IH]; simpl; [reflexivity |].
  rewrite Hjob. exact IH.
Qed.

Section BatchMore.
Context `{unicode : UnicodeDB} `{services : Services}.

(** What a call of [download_job] that returns has returned. *)
Lemma download_job_returns (job : DownloadJob) (w w1 : World)
    (result : DownloadJob * bool) :
  download_job job w = (w1, Ok result) ->
  fst result = job /\ (snd result = true -> done job (fs w1) = true).
Proof.
  rewrite download_job_unfold. destruct (done job (fs w)) eqn:Hdone.
  { intros [= <- <-]. split; [reflexivity | intros _; exact Hdone]. }
  destruct (mkdir_parents (parent (dest_path job)) (fs w)) as [t1 | e];
    [| discriminate].
  cbv zeta. destruct (dl_get (dl_requests w) (source_url job)) as [r |];
    [| discriminate].
  unfold after_fetch. destruct (status_code r =? NOT_FOUND).
  { intros [= <- <-]. split; [reflexivity | discriminate]. }
  unfold bind, raise_for_status. destruct (is_success r); [| discriminate].
  unfold ret at 1. unfold write_bytes, fs_update. cbn [fs add_dl_request set_fs].
  destruct (write_file (dest_path job) (content r) t1) as [t2 | e] eqn:Hwrite;
    [| discriminate].
  intros [= <- <-]. split; [reflexivity |]. intros _.
  unfold done, is_file. cbn [fs set_fs].
  rewrite (proj1 (write_file_node_at _ _ _ _ Hwrite)). reflexivity.
Qed.

(** X12: when the loop over the jobs comes to its end without an
    exception, it has one result for each job of the list, in whatever
    order, and every job reported as a success has a file at its
    [dest_path] in the final tree. *)
Theorem run_jobs_results (jobs : list DownloadJob) :
  forall (w w' : World) (results : list (DownloadJob * bool)),
    run_jobs jobs w = (w', Ok results) ->
    Permutation (map fst results) jobs
    /\ forall job, In (job, true) results -> done job (fs w') = true.
Proof.
  induction jobs as [|job rest IH]; intros w w' results.
  - intros [= <- <-]. split; [reflexivity | intros job []].
  - rewrite run_jobs_cons.
    destruct (download_job job w) as [w1 [result | e]] eqn:Hjob; [| discriminate].
    unfold bind.
    destruct (run_jobs_fetched rest w1) as (Hpersist & _).
    destruct (run_jobs rest w1) as [w2 [later | e]] eqn:Hrest; [| discriminate].
    intros [= <- <-]. simpl in Hpersist.
    destruct (IH w1 w2 later Hrest) as [Hfst Hdone].
    destruct (download_job_returns job w w1 result Hjob) as [Hresult Hfile].
    split; [simpl; rewrite Hresult; constructor; exact Hfst |].
    intros j [Hj | Hj]; [| apply Hdone, Hj].
    rewrite Hj in Hresult, Hfile. simpl in Hresult, Hfile. subst j.
    apply Hpersist, Hfile. reflexivity.
Qed.

(** X13: when every gathered job is done, the end of [main] fetches
    nothing and the pool is not started: the two log lines, the second of
    which says ["0 jobs to do."], are the only effect. *)
Theorem download_remaining_nothing_to_do (jobs : list DownloadJob) (w : World) :
  Forall (fun job => done job (fs w) = true) jobs ->
  download_remaining jobs w =
    (add_log INFO (py "0 jobs to do.")
       (add_log INFO
          (py_decimal (Z.of_nat (length jobs))
             ++ py " download jobs, seeing what remains to be done...") w),
     Ok tt)
  /\ fs (fst (download_remaining jobs w)) = fs w
  /\ dl_requests (fst (download_remaining jobs w)) = dl_requests w.
Proof.
  intros Hdone.
  assert (Hrun : download_remaining jobs w =
            (add_log INFO (py "0 jobs to do.")
               (add_log INFO
                  (py_decimal (Z.of_nat (length jobs))
                     ++ py " download jobs, seeing what remains to be done...") w),
             Ok tt)).
  { rewrite download_remaining_unfold, (remaining_jobs_all_done jobs (fs w) Hdone).
    reflexivity. }
  rewrite Hrun. auto.
Qed.

Lemma main_selected_no_usage_error (token_from_env : option str) (args : Args)
    (guilds_gen : generator) (w : World) :
  token_given token_from_env = true ->
  select_guilds args = Ok guilds_gen ->
  no_usage_error (snd (main token_from_env args w)).
Proof.
  intros Htoken Hsel. rewrite main_unfold, Htoken, Hsel. cbn [negb].
  destruct (respects_gen_select_guilds any_step args guilds_gen Hsel w)
    as [_ Hsteps].
  destruct (guilds_gen w) as [w1 [steps | e]]; simpl in Hsteps; [| exact Hsteps].
  destruct (respects_collect_jobs any_step [py "download"] steps Hsteps [] w1)
    as [_ Hres].
  destruct (collect_jobs [py "download"] steps [] w1) as [w2 [jobs | e]];
    simpl in Hres; [| exact Hres].
  apply download_remaining_fetched.
Qed.

(** X14: once the command line has parsed, [main] ends in a usage error
    of its own in two cases only, and with nothing done in both: the token
    is missing or empty (the message then names [DISCORD_USER_TOKEN],
    whatever the selectors), or the token is there and no selector is
    given. No exception of the API, of the filesystem or of a download is
    reported as a usage error. *)
Theorem main_usage_error_iff (token_from_env : option str) (args : Args)
    (w : World) (message : str) :
  (snd (main token_from_env args w) = Raise (UsageError message) <->
   (token_given token_from_env = false
    /\ message = py "DISCORD_USER_TOKEN is required")
   \/ (token_given token_from_env = true
       /\ my_guilds args = false
       /\ given (guild_ids args) = false
       /\ given (source_emoji_ids args) = false
       /\ message = py "Don't know where to get emojis from"))
  /\ (snd (main token_from_env args w) = Raise (UsageError message) ->
      fst (main token_from_env args w) = w).
Proof.
  destruct (token_given token_from_env) eqn:Htoken.
  - destruct (select_guilds args) as [g | e] eqn:Hsel.
    + pose proof (main_selected_no_usage_error token_from_env args g w Htoken Hsel)
        as Hquiet.
      assert (Hnot : snd (main token_from_env args w) <> Raise (UsageError message)).
      { intros Heq. rewrite Heq in Hquiet. exact Hquiet. }
      split; [| intros Heq; contradiction].
      split; [intros Heq; contradiction |].
      intros [[Hfalse _] | (_ & Hm & Hg & Hs & _)]; [discriminate |].
      rewrite (select_guilds_unselected args Hm Hg Hs) in Hsel. discriminate.
    + assert (Hrun : main token_from_env args w = (w, Raise e))
        by (rewrite main_unfold, Htoken, Hsel; reflexivity).
      rewrite Hrun. simpl. split; [| reflexivity].
      unfold select_guilds in Hsel.
      destruct (my_guilds args); [discriminate |].
      destruct (given (guild_ids args)); [discriminate |].
      destruct (given (source_emoji_ids args)); [discriminate |].
      injection Hsel as <-. split.
      * intros [= <-]. right. repeat split; reflexivity.
      * intros [[Hfalse _] | (_ & _ & _ & _ & ->)]; [discriminate | reflexivity].
  - assert (Hrun : main token_from_env args w =
              (w, Raise (UsageError (py "DISCORD_USER_TOKEN is required"))))
      by (rewrite main_unfold, Htoken; reflexivity).
    rewrite Hrun. simpl. split; [| reflexivity]. split.
    + intros [= <-]. left. split; reflexivity.
    + intros [[_ ->] | [Hfalse _]]; [reflexivity | discriminate].
Qed.

(** X15: the enumeration fails fast, and for a guild a "not found" is
    fatal like any other status that is not a success: when the API
    answers the first id of [--guild-id] with such a status, [main] raises
    the [HTTPStatusError] after that one request; the ids after it are not
    asked for, nothing is written and nothing downloaded. *)
Theorem main_aborts_on_first_guild_error (token_from_env : option str)
    (args : Args) (guild_id : Z) (others : list Z) (r : response) (w : World) :
  let url := py "https://discord.com/api/v10/guilds/" ++ py_decimal guild_id in
  token_given token_from_env = true ->
  my_guilds args = false ->
  guild_ids args = Some (guild_id :: others) ->
  discord_api_get (api_requests w) url = Responded r ->
  is_success r = false ->
  main token_from_env args w =
    (add_api_request url w, Raise (HTTPStatusError (status_code r))).
Proof.
  intros url Htoken Hmine Hids Hget Hbad.
  rewrite main_unfold, Htoken. cbn [negb].
  unfold select_guilds. rewrite Hmine, Hids. cbn [given].
  change (default [] (Some (guild_id :: others))) with (guild_id :: others).
  unfold get_guild_infos_by_ids, ret.
  assert (Hstep : collect_jobs [py "download"]
                    (map guild_info_by_id (guild_id :: others)) [] w =
                  (add_api_request url w, Raise (HTTPStatusError (status_code r)))).
  { cbn [map collect_jobs]. unfold bind at 1. unfold guild_info_by_id, bind at 1.
    unfold discord_api_client_get. fold url. rewrite Hget.
    unfold raise_for_status. rewrite Hbad. reflexivity. }
  rewrite Hstep. reflexivity.
Qed.

End BatchMore.

(** ** Request URLs of the enumerators *)

Lemma Z_to_int_not_nil (z : Z) :
  Z.to_int z <> Decimal.Pos Decimal.Nil /\ Z.to_int z <> Decimal.Neg Decimal.Nil.
Proof.
  destruct z as [|p|p]; simpl; split; try discriminate;
    intros [= Hp]; exact (DecimalPos.Unsigned.to_uint_nonnil p Hp).
Qed.

Lemma py_inj (a b : string) : py a = py b -> a = b.
Proof.
  unfold py. intros Heq.
  apply (f_equal (map ascii_of_N)) in Heq. rewrite !map_map in Heq.
  rewrite !(map_ext _ (fun x => x) ascii_N_embedding), !map_id in Heq.
  apply (f_equal string_of_list_ascii) in Heq.
  rewrite !string_of_list_ascii_of_string in Heq. exact Heq.
Qed.

(** [str(n)]: two integers with the same decimal text are equal. *)
Lemma py_decimal_inj (a b : Z) : py_decimal a = py_decimal b -> a = b.
Proof.
  unfold py_decimal. intros Heq. apply py_inj in Heq.
  apply (f_equal NilZero.int_of_string) in Heq.
  destruct (Z_to_int_not_nil a) as [Ha1 Ha2].
  destruct (Z_to_int_not_nil b) as [Hb1 Hb2].
  rewrite !NilZero.isi in Heq by assumption.
  injection Heq as Heq. apply (f_equal Z.of_int) in Heq.
  rewrite !DecimalZ.of_to in Heq. exact Heq.
Qed.

Section EnumeratorMore.
Context `{services : Services}.

Lemma guild_info_by_id_request (guild_id : Z) (w : World) :
  fst (guild_info_by_id guild_id w) =
    add_api_request
      (py "https://discord.com/api/v10/guilds/" ++ py_decimal guild_id) w.
Proof.
  unfold guild_info_by_id, bind, discord_api_client_get.
  destruct (discord_api_get (api_requests w) _) as [r |]; [| reflexivity].
  unfold raise_for_status. destruct (is_success r); [| reflexivity].
  unfold ret, response_json. destruct (json_body r); reflexivity.
Qed.

Lemma guild_info_by_source_emoji_id_request (emoji_id : Z) (w : World) :
  fst (guild_info_by_source_emoji_id emoji_id w) =
    add_api_request
      (py "https://discord.com/api/v9/emojis/" ++ py_decimal emoji_id
         ++ py "/source") w.
Proof.
  unfold guild_info_by_source_emoji_id, bind, discord_api_client_get.
  destruct (discord_api_get (api_requests w) _) as [r |]; [| reflexivity].
  unfold raise_for_status. destruct (is_success r); [| reflexivity].
  unfold ret, response_json. destruct (json_body r) as [data |]; [| reflexivity].
  unfold lift. reflexivity.
Qed.

(** X16: a turn of [get_guild_infos_by_ids] or of
    [get_guild_infos_by_source_emoji_ids] sends exactly one request to the
    API and changes nothing else, whatever the answer; the URL holds the id
    in decimal, so that two ids are asked for at the same URL only when
    they are equal. *)
Theorem enumerators_ask_one_url_per_id (a b : Z) (w : World) :
  fst (guild_info_by_id a w) =
    add_api_request (py "https://discord.com/api/v10/guilds/" ++ py_decimal a) w
  /\ fst (guild_info_by_source_emoji_id a w) =
       add_api_request
         (py "https://discord.com/api/v9/emojis/" ++ py_decimal a ++ py "/source") w
  /\ (api_requests (fst (guild_info_by_id a w)) =
        api_requests (fst (guild_info_by_id b w)) <-> a = b)
  /\ (api_requests (fst (guild_info_by_source_emoji_id a w)) =
        api_requests (fst (guild_info_by_source_emoji_id b w)) <-> a = b).
Proof.
  split; [apply guild_info_by_id_request |].
  split; [apply guild_info_by_source_emoji_id_request |].
  rewrite !guild_info_by_id_request, !guild_info_by_source_emoji_id_request.
  cbn [api_requests add_api_request]. split; split; try (intros ->; reflexivity).
  - intros Heq. apply app_inv_head in Heq.
    assert (Hurl : py "https://discord.com/api/v10/guilds/" ++ py_decimal a =
                   py "https://discord.com/api/v10/guilds/" ++ py_decimal b)
      by congruence.
    apply app_inv_head in Hurl. apply py_decimal_inj, Hurl.
  - intros Heq. apply app_inv_head in Heq.
    assert (Hurl : py "https://discord.com/api/v9/emojis/" ++ py_decimal a
                     ++ py "/source" =
                   py "https://discord.com/api/v9/emojis/" ++ py_decimal b
                     ++ py "/source")
      by congruence.
    apply app_inv_head in Hurl. apply app_inv_tail in Hurl.
    apply py_decimal_inj, Hurl.
Qed.

End EnumeratorMore.

(** ** What [main] leaves alone *)

Lemma same_outside_refl (top : str) (t : gmap path node) : same_outside top t t.
Proof. intros q _. reflexivity. Qed.

Lemma same_outside_trans (top : str) (t1 t2 t3 : gmap path node) :
  same_outside top t1 t2 -> same_outside top t2 t3 -> same_outside top t1 t3.
Proof. intros H12 H23 q Hq. rewrite (H23 q Hq). apply H12, Hq. Qed.

Lemma mkdir_below_elsewhere (parts : list str) :
  forall (base : path) (t t1 : gmap path node),
    mkdir_below base parts t = Ok t1 ->
    forall q : path, ~ (base ++ take 1 parts) `prefix_of` q -> t1 !! q = t !! q.
Proof.
  induction parts as [|c rest IH]; intros base t t1; simpl.
  - intros [= <-] q _. reflexivity.
  - rewrite take_0.
    assert (Hdeeper : forall q : path,
              ~ (base ++ [c]) `prefix_of` q ->
              ~ ((base ++ [c]) ++ take 1 rest) `prefix_of` q).
    { intros q Hq Hprefix. apply Hq.
      etransitivity; [apply prefix_app_r; reflexivity | exact Hprefix]. }
    destruct (t !! (base ++ [c])) as [[data |] |] eqn:Hc; [discriminate | |];
      intros Hrec q Hq.
    + apply (IH _ _ _ Hrec q), Hdeeper, Hq.
    + rewrite (IH _ _ _ Hrec q) by apply Hdeeper, Hq.
      apply lookup_insert_ne. intros <-. apply Hq. reflexivity.
Qed.

Lemma mkdir_parents_same_outside (top : str) (p : path) (t t1 : gmap path node) :
  head p = Some top -> mkdir_parents p t = Ok t1 -> same_outside top t t1.
Proof.
  intros Hp Hmk [|c q] Hq; [reflexivity |].
  destruct p as [|c' p]; [discriminate |]. injection Hp as ->.
  change (t1 !! (c :: q) = t !! (c :: q)).
  apply (mkdir_below_elsewhere _ [] t t1 Hmk).
  simpl. rewrite take_0. intros [rest Hrest]. injection Hrest as -> _.
  apply Hq. reflexivity.
Qed.

Lemma write_file_same_outside (top : str) (p : path) (data : bytes)
    (t t1 : gmap path node) :
  head p = Some top -> write_file p data t = Ok t1 -> same_outside top t t1.
Proof.
  intros Hp Hwrite q Hq. apply (write_file_node_at _ _ _ _ Hwrite). congruence.
Qed.

Lemma head_parent (top : str) (p : path) :
  head (parent p) = Some top -> head p = Some top.
Proof.
  unfold parent. destruct p as [|c p]; [discriminate |].
  destruct p as [|c' p]; [discriminate |]. simpl. auto.
Qed.

Lemma head_path_div (top : str) (segment : str) :
  head (path_div [top] segment) = Some top.
Proof. unfold path_div. destruct (_ || _); reflexivity. Qed.

Section Containment.
Context `{unicode : UnicodeDB} `{services : Services}.

Lemma get_downloads_from_guild_info_same_outside (top : str) (guild : json)
    (w : World) :
  same_outside top (fs w) (fs (fst (get_downloads_from_guild_info [top] guild w))).
Proof.
  unfold get_downloads_from_guild_info, bind, lift.
  destruct (py_getitem guild (py "name")) as [name | e];
    [| apply same_outside_refl].
  destruct (as_str name) as [name_str | e]; [| apply same_outside_refl].
  unfold mkdir, write_bytes, fs_update.
  destruct (mkdir_parents _ (fs w)) as [t1 | e] eqn:Hmk; [| apply same_outside_refl].
  pose proof (mkdir_parents_same_outside top _ _ _ (head_path_div top _) Hmk) as H1.
  cbn [fs set_fs].
  destruct (write_file _ _ t1) as [t2 | e] eqn:Hwrite; [| exact H1].
  eapply same_outside_trans; [exact H1 |].
  refine (write_file_same_outside top _ _ _ _ _ Hwrite).
  change (path_div (path_div [top] (clean_name_for_fs name_str)) (py "info.json"))
    with (path_div [top] (clean_name_for_fs name_str) ++ [py "info.json"]).
  rewrite head_app, head_path_div. reflexivity.
Qed.

Lemma get_downloads_from_guild_info_jobs_below (top : str) (guild : json)
    (w w' : World) (jobs : list DownloadJob) :
  get_downloads_from_guild_info [top] guild w = (w', Ok jobs) ->
  Forall (job_below top) jobs.
Proof.
  intros Hrun.
  apply get_downloads_from_guild_info_inv in Hrun
    as (kvs & guild_name & t1 & t2 & _ & _ & _ & _ & _ & Hjobs).
  eapply Forall_impl; [apply (yield_jobs_dest _ _ _ _ Hjobs) |].
  intros job (kind & name & ext & Hdest & _). unfold job_below. rewrite Hdest.
  change (path_div [top] (clean_name_for_fs guild_name)
            ++ [kind; clean_name_for_fs name ++ py "." ++ ext])
    with (path_div [top] (clean_name_for_fs guild_name)
            ++ [kind] ++ [clean_name_for_fs name ++ py "." ++ ext]).
  rewrite app_assoc, parent_snoc, head_app, head_path_div. reflexivity.
Qed.

Lemma download_job_same_outside (top : str) (job : DownloadJob) (w : World) :
  job_below top job ->
  same_outside top (fs w) (fs (fst (download_job job w))).
Proof.
  intros Hjob. rewrite download_job_unfold.
  destruct (done job (fs w)); [apply same_outside_refl |].
  destruct (mkdir_parents (parent (dest_path job)) (fs w)) as [t1 | e] eqn:Hmk;
    [| apply same_outside_refl].
  pose proof (mkdir_parents_same_outside top _ _ _ Hjob Hmk) as H1.
  cbv zeta. destruct (dl_get (dl_requests w) (source_url job)) as [r |];
    [| exact H1].
  destruct (after_fetch_world job r (add_dl_request (source_url job) (set_fs t1 w)))
    as [_ Hfs].
  intros q Hq. rewrite Hfs.
  - apply H1, Hq.
  - intros ->. apply Hq, head_parent, Hjob.
Qed.

Lemma run_jobs_same_outside (top : str) (jobs : list DownloadJob) :
  Forall (job_below top) jobs ->
  forall w, same_outside top (fs w) (fs (fst (run_jobs jobs w))).
Proof.
  induction 1 as [|job rest Hjob _ IH]; intros w; [apply same_outside_refl |].
  rewrite run_jobs_cons.
  pose proof (download_job_same_outside top job w Hjob) as H1.
  destruct (download_job job w) as [w1 [result | e]]; [| exact H1].
  rewrite bind_ret_fst.
  eapply same_outside_trans; [exact H1 | apply IH].
Qed.

Lemma download_remaining_same_outside (top : str) (jobs : list DownloadJob)
    (w : World) :
  Forall (job_below top) jobs ->
  same_outside top (fs w) (fs (fst (download_remaining jobs w))).
Proof.
  intros Hjobs. rewrite download_remaining_unfold. cbv zeta.
  assert (Htodo : Forall (job_below top) (remaining_jobs jobs (fs w))).
  { apply Forall_forall. intros job Hjob.
    apply list_elem_of_In, filter_In in Hjob as [Hjob _].
    apply (proj1 (Forall_forall _ _) Hjobs), list_elem_of_In, Hjob. }
  destruct (remaining_jobs jobs (fs w)) as [|job todo] eqn:Hremaining;
    [apply same_outside_refl |].
  rewrite bind_ret_fst.
  exact (run_jobs_same_outside top _ Htodo (add_log INFO _ (add_log INFO _ w))).
Qed.

Lemma keeps_tree_guild_info_by_id (guild_id : Z) :
  keeps_tree (guild_info_by_id guild_id).
Proof. intros w. rewrite guild_info_by_id_request. reflexivity. Qed.

Lemma keeps_tree_guild_info_by_source_emoji_id (emoji_id : Z) :
  keeps_tree (guild_info_by_source_emoji_id emoji_id).
Proof. intros w. rewrite guild_info_by_source_emoji_id_request. reflexivity. Qed.

Lemma keeps_tree_my_guild_info (guild : json) : keeps_tree (my_guild_info guild).
Proof.
  intros w. unfold my_guild_info, bind, lift.
  destruct (py_getitem guild (py "id")) as [guild_id | e]; [| reflexivity].
  unfold discord_api_client_get.
  destruct (discord_api_get (api_requests w) _) as [r |]; [| reflexivity].
  unfold raise_for_status. destruct (is_success r); [| reflexivity].
  unfold ret, response_json. destruct (json_body r) as [data |]; [| reflexivity].
  destruct (py_or guild data); reflexivity.
Qed.

Lemma keeps_tree_select_guilds (args : Args) (guilds_gen : generator) (w : World) :
  select_guilds args = Ok guilds_gen ->
  fs (fst (guilds_gen w)) = fs w
  /\ forall guilds, snd (guilds_gen w) = Ok guilds -> Forall keeps_tree guilds.
Proof.
  unfold select_guilds. destruct (my_guilds args).
  { intros [= <-]. unfold get_my_guilds_info, bind, discord_api_client_get.
    destruct (discord_api_get (api_requests w) _) as [r |];
      [| split; [reflexivity | discriminate]].
    unfold raise_for_status. destruct (is_success r);
      [| split; [reflexivity | discriminate]].
    unfold response_json. destruct (json_body r) as [guilds |];
      [| split; [reflexivity | discriminate]].
    unfold ret, lift. destruct (py_iter guilds) as [items | e];
      [| split; [reflexivity | discriminate]].
    split; [reflexivity |]. intros steps [= <-].
    apply Forall_map, Forall_forall. intros guild _. apply keeps_tree_my_guild_info. }
  destruct (given (guild_ids args)).
  { intros [= <-]. split; [reflexivity |]. intros steps [= <-].
    apply Forall_map, Forall_forall. intros guild_id _.
    apply keeps_tree_guild_info_by_id. }
  destruct (given (source_emoji_ids args)); [| discriminate].
  intros [= <-]. split; [reflexivity |]. intros steps [= <-].
  apply Forall_map, Forall_forall. intros emoji_id _.
  apply keeps_tree_guild_info_by_source_emoji_id.
Qed.

Lemma collect_jobs_cons (root_path : path) (next_guild : M json)
    (rest : list (M json)) (jobs : list DownloadJob) (w : World) :
  collect_jobs root_path (next_guild :: rest) jobs w =
    match next_guild w with
    | (w1, Ok guild) =>
        match get_downloads_from_guild_info root_path guild w1 with
        | (w2, Ok found) => collect_jobs root_path rest (jobs ++ found) w2
        | (w2, Raise e) => (w2, Raise e)
        end
    | (w1, Raise e) => (w1, Raise e)
    end.
Proof. reflexivity. Qed.

Lemma collect_jobs_same_outside (top : str) (guilds : list (M json)) :
  Forall keeps_tree guilds ->
  forall (jobs : list DownloadJob) (w : World),
    Forall (job_below top) jobs ->
    same_outside top (fs w) (fs (fst (collect_jobs [top] guilds jobs w)))
    /\ forall found,
         snd (collect_jobs [top] guilds jobs w) = Ok found ->
         Forall (job_below top) found.
Proof.
  induction 1 as [|next_guild rest Hnext _ IH]; intros jobs w Hjobs.
  - split; [apply same_outside_refl |]. intros found [= <-]. exact Hjobs.
  - rewrite collect_jobs_cons. specialize (Hnext w).
    destruct (next_guild w) as [w1 [guild | e]]; simpl in Hnext;
      [| split; [simpl; rewrite Hnext; apply same_outside_refl
               | intros found Hfound; simpl in Hfound; discriminate]].
    pose proof (get_downloads_from_guild_info_same_outside top guild w1) as H1.
    destruct (get_downloads_from_guild_info [top] guild w1)
      as [w2 [found | e]] eqn:Hbuild; simpl in H1;
      [| split; [rewrite <- Hnext; exact H1
               | intros found' Hfound; simpl in Hfound; discriminate]].
    apply get_downloads_from_guild_info_jobs_below in Hbuild.
    destruct (IH (jobs ++ found) w2) as [H2 Hfound].
    { apply Forall_app. split; assumption. }
    split; [| exact Hfound].
    rewrite <- Hnext. eapply same_outside_trans; eassumption.
Qed.

(** X18: in a tree without symbolic links, whatever the arguments and
    whatever the API and the CDN answer, a run of [main] in which every
    name read is a string (the run does not stop at a list or a dict in
    the place of a name) leaves everything outside the directory
    [download] of the working directory as it was: it creates, overwrites
    and removes nothing there. *)
Theorem main_writes_below_download_only (token_from_env : option str)
    (args : Args) (w : World) (q : path) :
  snd (main token_from_env args w) <> Raise OutsideAnnotation ->
  head q <> Some (py "download") ->
  node_at (fs (fst (main token_from_env args w))) q = node_at (fs w) q.
Proof.
  intros _. revert q.
  change (same_outside (py "download") (fs w)
            (fs (fst (main token_from_env args w)))).
  rewrite main_unfold.
  destruct (negb (token_given token_from_env)); [apply same_outside_refl |].
  destruct (select_guilds args) as [g | e] eqn:Hsel; [| apply same_outside_refl].
  destruct (keeps_tree_select_guilds args g w Hsel) as [Hfs Hsteps].
  destruct (g w) as [w1 [steps | e]]; simpl in Hfs, Hsteps;
    [| simpl; rewrite Hfs; apply same_outside_refl].
  destruct (collect_jobs_same_outside (py "download") steps (Hsteps steps eq_refl)
              [] w1 (List.Forall_nil _)) as [H1 Hjobs].
  destruct (collect_jobs [py "download"] steps [] w1) as [w2 [jobs | e]];
    simpl in H1, Hjobs; [| rewrite <- Hfs; exact H1].
  rewrite <- Hfs. eapply same_outside_trans; [exact H1 |].
  apply download_remaining_same_outside, Hjobs. reflexivity.
Qed.

End Containment.

(** ** Files of an earlier run *)

Lemma keeps_file_trans (q : path) (data : bytes) (t1 t2 t3 : gmap path node) :
  keeps_file q data t1 t2 -> keeps_file q data t2 t3 -> keeps_file q data t1 t3.
Proof. intros H12 H23 Hq. apply H23, H12, Hq. Qed.

Lemma mkdir_parents_keeps_file (q : path) (data : bytes) (p : path)
    (t t1 : gmap path node) :
  mkdir_parents p t = Ok t1 -> keeps_file q data t t1.
Proof.
  intros Hmk Hq.
  destruct (mkdir_parents_node_at p t t1 q Hmk) as [-> | [Hnone _]]; congruence.
Qed.

Lemma write_file_keeps_file (q : path) (data : bytes) (p : path) (new : bytes)
    (t t1 : gmap path node) :
  q <> p -> write_file p new t = Ok t1 -> keeps_file q data t t1.
Proof.
  intros Hne Hwrite Hq.
  rewrite (proj2 (write_file_node_at _ _ _ _ Hwrite) q Hne). exact Hq.
Qed.

Section EarlierFiles.
Context `{unicode : UnicodeDB} `{services : Services}.

Lemma get_downloads_from_guild_info_keeps_file (q : path) (data : bytes)
    (root_path : path) (guild : json) (w : World) :
  last q <> Some (py "info.json") ->
  keeps_file q data (fs w)
    (fs (fst (get_downloads_from_guild_info root_path guild w))).
Proof.
  intros Hlast.
  unfold get_downloads_from_guild_info, bind, lift.
  destruct (py_getitem guild (py "name")) as [name | e]; [| intros Hq; exact Hq].
  destruct (as_str name) as [name_str | e]; [| intros Hq; exact Hq].
  unfold mkdir, write_bytes, fs_update.
  destruct (mkdir_parents _ (fs w)) as [t1 | e] eqn:Hmk; [| intros Hq; exact Hq].
  pose proof (mkdir_parents_keeps_file q data _ _ _ Hmk) as H1.
  cbn [fs set_fs].
  destruct (write_file _ _ t1) as [t2 | e] eqn:Hwrite; [| exact H1].
  eapply keeps_file_trans; [exact H1 |].
  refine (write_file_keeps_file q data _ _ _ _ _ Hwrite).
  intros ->. apply Hlast.
  change (path_div (path_div root_path (clean_name_for_fs name_str)) (py "info.json"))
    with (path_div root_path (clean_name_for_fs name_str) ++ [py "info.json"]).
  apply last_snoc.
Qed.

Lemma download_job_keeps_file (q : path) (data : bytes) (job : DownloadJob)
    (w : World) :
  keeps_file q data (fs w) (fs (fst (download_job job w))).
Proof.
  intros Hq. rewrite download_job_unfold.
  destruct (done job (fs w)) eqn:Hdone; [exact Hq |].
  assert (Hne : q <> dest_path job).
  { intros ->. unfold done, is_file in Hdone. rewrite Hq in Hdone. discriminate. }
  destruct (mkdir_parents (parent (dest_path job)) (fs w)) as [t1 | e] eqn:Hmk;
    [| exact Hq].
  pose proof (mkdir_parents_keeps_file q data _ _ _ Hmk Hq) as H1.
  cbv zeta. destruct (dl_get (dl_requests w) (source_url job)) as [r |];
    [| exact H1].
  destruct (after_fetch_world job r (add_dl_request (source_url job) (set_fs t1 w)))
    as [_ Hfs].
  rewrite (Hfs q Hne). exact H1.
Qed.

Lemma run_jobs_keeps_file (q : path) (data : bytes) (jobs : list DownloadJob) :
  forall w, keeps_file q data (fs w) (fs (fst (run_jobs jobs w))).
Proof.
  induction jobs as [|job rest IH]; intros w; [intros Hq; exact Hq |].
  rewrite run_jobs_cons.
  pose proof (download_job_keeps_file q data job w) as H1.
  destruct (download_job job w) as [w1 [result | e]]; [| exact H1].
  rewrite bind_ret_fst. eapply keeps_file_trans; [exact H1 | apply IH].
Qed.

Lemma download_remaining_keeps_file (q : path) (data : bytes)
    (jobs : list DownloadJob) (w : World) :
  keeps_file q data (fs w) (fs (fst (download_remaining jobs w))).
Proof.
  rewrite download_remaining_unfold. cbv zeta.
  destruct (remaining_jobs jobs (fs w)) as [|job todo]; [intros Hq; exact Hq |].
  rewrite bind_ret_fst.
  exact (run_jobs_keeps_file q data _ (add_log INFO _ (add_log INFO _ w))).
Qed.

Lemma collect_jobs_keeps_file (q : path) (data : bytes) (root_path : path)
    (guilds : list (M json)) :
  last q <> Some (py "info.json") ->
  Forall keeps_tree guilds ->
  forall (jobs : list DownloadJob) (w : World),
    keeps_file q data (fs w) (fs (fst (collect_jobs root_path guilds jobs w))).
Proof.
  intros Hlast. induction 1 as [|next_guild rest Hnext _ IH]; intros jobs w.
  - intros Hq. exact Hq.
  - rewrite collect_jobs_cons. specialize (Hnext w).
    destruct (next_guild w) as [w1 [guild | e]]; simpl in Hnext;
      [| intros Hq; simpl; rewrite Hnext; exact Hq].
    pose proof (get_downloads_from_guild_info_keeps_file q data root_path guild w1
                  Hlast) as H1.
    rewrite Hnext in H1.
    destruct (get_downloads_from_guild_info root_path guild w1)
      as [w2 [found | e]]; simpl in H1; [| exact H1].
    eapply keeps_file_trans; [exact H1 | apply IH].
Qed.

(** X19: in a tree without symbolic links, a run of [main] in which every
    name read is a string never removes, replaces or rewrites a file that
    is there when it starts, the metadata snapshots apart: a file that is
    not named [info.json] is, after the run, a file with the content it
    had, whatever the arguments and whatever the API and the CDN answer.
    A download of an earlier run is never fetched over. *)
Theorem main_keeps_earlier_files (token_from_env : option str) (args : Args)
    (w : World) (q : path) (data : bytes) :
  snd (main token_from_env args w) <> Raise OutsideAnnotation ->
  last q <> Some (py "info.json") ->
  node_at (fs w) q = Some (File data) ->
  node_at (fs (fst (main token_from_env args w))) q = Some (File data).
Proof.
  intros _ Hlast.
  change (keeps_file q data (fs w) (fs (fst (main token_from_env args w)))).
  rewrite main_unfold.
  destruct (negb (token_given token_from_env)); [intros Hq; exact Hq |].
  destruct (select_guilds args) as [g | e] eqn:Hsel; [| intros Hq; exact Hq].
  destruct (keeps_tree_select_guilds args g w Hsel) as [Hfs Hsteps].
  destruct (g w) as [w1 [steps | e]]; simpl in Hfs, Hsteps;
    [| intros Hq; simpl; rewrite Hfs; exact Hq].
  pose proof (collect_jobs_keeps_file q data [py "download"] steps Hlast
                (Hsteps steps eq_refl) [] w1) as H1.
  rewrite Hfs in H1.
  destruct (collect_jobs [py "download"] steps [] w1) as [w2 [jobs | e]];
    simpl in H1; [| exact H1].
  eapply keeps_file_trans; [exact H1 | apply download_remaining_keeps_file].
Qed.

End EarlierFiles.

(** ** The further properties on the small catalogue *)

Lemma get_downloads_from_guild_info_layout_witness :
  exists guild_name,
    py_getitem (JObj guild_detail) (py "name") = Ok (JStr guild_name)
    /\ Forall (fun job =>
                 exists kind file,
                   dest_path job =
                     path_div [py "download"]
                       (@clean_name_for_fs latin_isalnum guild_name) ++ [kind; file]
                   /\ (kind = py "emojis" \/ kind = py "stickers")
                   /\ Forall (fun c => c <> 47) file
                   /\ file <> py ".."
                   /\ forall q, dest_path job <> q ++ [py "info.json"])
         [parrot_job; foobarbaz_job; wave_job].
Proof.
  apply (get_downloads_from_guild_info_layout (unicode := latin_isalnum)
           (services := canned_services) [py "download"] (JObj guild_detail)
           (world_of ∅) (set_fs built_tree (world_of ∅))).
  evaluated.
Defined.

Lemma get_downloads_from_guild_info_needs_a_name_witness :
  @get_downloads_from_guild_info latin_isalnum canned_services [py "download"]
    nameless_guild (world_of ∅) =
    (world_of ∅, Raise (KeyError (py "name"))).
Proof.
  exact (proj1 (get_downloads_from_guild_info_needs_a_name
                  (unicode := latin_isalnum) (services := canned_services)
                  [py "download"] nameless_guild (world_of ∅) I)).
Defined.

Lemma get_downloads_from_guild_info_raises_after_snapshot_witness :
  exists e,
    @get_downloads_from_guild_info latin_isalnum canned_services [py "download"]
      (JObj half_emoji_guild) (world_of ∅) =
      (set_fs built_tree (world_of ∅), Raise e)
    /\ node_at built_tree snapshot_path = Some (File canned_snapshot).
Proof.
  apply (get_downloads_from_guild_info_raises_after_snapshot
           (unicode := latin_isalnum) (services := canned_services)
           [py "download"] half_emoji_guild (py "My Guild!")
           [JObj [(py "id", JStr (py "1")); (py "name", JStr (py "parrot"))]]
           (world_of ∅) guild_dir_tree built_tree).
  - evaluated.
  - evaluated.
  - evaluated.
  - evaluated.
  - constructor. exists (py "animated"). split; [left; reflexivity |].
    intros v Hv. vm_compute in Hv. discriminate.
Defined.

Lemma get_downloads_from_guild_info_empty_name_witness :
  @clean_name_for_fs latin_isalnum (py "!!!") = []
  /\ node_at
       (fs (fst (@get_downloads_from_guild_info latin_isalnum canned_services
                   [py "download"] (JObj punctuation_guild) (world_of ∅))))
       [py "download"; py "info.json"] = Some (File canned_snapshot).
Proof.
  assert (Hclean : @clean_name_for_fs latin_isalnum (py "!!!") = []) by evaluated.
  split; [exact Hclean |].
  destruct (get_downloads_from_guild_info_empty_name
              (unicode := latin_isalnum) (services := canned_services)
              [py "download"] punctuation_guild (py "!!!") (world_of ∅)
              download_tree root_snapshot_tree) as (Hrun & Hfile & _);
    [evaluated | exact Hclean | evaluated | evaluated |].
  rewrite Hrun. exact Hfile.
Defined.

Lemma download_job_writes_payload_once_witness :
  @download_job canned_services parrot_job (world_of ∅) =
    (set_fs parrot_file_tree
       (add_dl_request (source_url parrot_job) (set_fs emoji_dir_tree (world_of ∅))),
     Ok (parrot_job, true)).
Proof.
  refine (proj1 (download_job_writes_payload_once (services := canned_services)
                   parrot_job (world_of ∅) emoji_dir_tree parrot_file_tree
                   (a_response 200 None) _ _ _ _ _)); evaluated.
Defined.

Lemma download_job_leaves_parent_directory_witness :
  dl_requests (fst (@download_job canned_services foobarbaz_job (world_of ∅))) =
    [source_url foobarbaz_job]
  /\ is_dir (fs (fst (@download_job canned_services foobarbaz_job (world_of ∅))))
       emoji_dir = true.
Proof.
  destruct (download_job_leaves_parent_directory (services := canned_services)
              foobarbaz_job (world_of ∅) emoji_dir_tree) as (Hsent & Hdir & _);
    [evaluated | evaluated |].
  split; [exact Hsent | exact Hdir].
Defined.

Lemma download_job_blocked_by_file_witness :
  exists e,
    @download_job canned_services parrot_job (world_of blocked_tree) =
      (world_of blocked_tree, Raise (OSError e)).
Proof.
  apply (download_job_blocked_by_file (services := canned_services)
           parrot_job (world_of blocked_tree) [py "download"; py "My Guild"]
           png_payload).
  - evaluated.
  - discriminate.
  - exists [py "emojis"]. reflexivity.
  - evaluated.
Defined.

Lemma run_jobs_results_witness :
  @run_jobs canned_services [foobarbaz_job; parrot_job] (world_of ∅) =
    (after_two_jobs, Ok [(foobarbaz_job, false); (parrot_job, true)])
  /\ Permutation (map fst [(foobarbaz_job, false); (parrot_job, true)])
       [foobarbaz_job; parrot_job]
  /\ forall job,
       In (job, true) [(foobarbaz_job, false); (parrot_job, true)] ->
       done job (fs after_two_jobs) = true.
Proof.
  assert (Hrun : @run_jobs canned_services [foobarbaz_job; parrot_job] (world_of ∅) =
                   (after_two_jobs, Ok [(foobarbaz_job, false); (parrot_job, true)]))
    by evaluated.
  split; [exact Hrun |].
  exact (run_jobs_results (services := canned_services)
           [foobarbaz_job; parrot_job] (world_of ∅) after_two_jobs _ Hrun).
Defined.

Lemma download_remaining_nothing_to_do_witness :
  fs (fst (@download_remaining canned_services [parrot_job]
             (world_of parrot_file_tree))) = parrot_file_tree
  /\ dl_requests (fst (@download_remaining canned_services [parrot_job]
                         (world_of parrot_file_tree))) = [].
Proof.
  destruct (download_remaining_nothing_to_do (services := canned_services)
              [parrot_job] (world_of parrot_file_tree)) as (_ & Hfs & Hdl).
  - constructor; [evaluated | constructor].
  - split; [exact Hfs | exact Hdl].
Defined.

Lemma main_aborts_on_first_guild_error_witness :
  @main latin_isalnum canned_services (Some (py "token")) two_guild_ids (world_of ∅) =
    (add_api_request (py "https://discord.com/api/v10/guilds/7") (world_of ∅),
     Raise (HTTPStatusError 403)).
Proof.
  refine (main_aborts_on_first_guild_error (unicode := latin_isalnum)
            (services := canned_services) (Some (py "token")) two_guild_ids
            7%Z [42%Z] (a_response 403 None) (world_of ∅) _ _ _ _ _);
    try reflexivity; evaluated.
Defined.

Lemma main_writes_below_download_only_witness :
  snd (@main latin_isalnum canned_services (Some (py "token")) two_selectors
         (world_of notes_tree)) = Ok tt
  /\ node_at
       (fs (fst (@main latin_isalnum canned_services (Some (py "token"))
                   two_selectors (world_of notes_tree))))
       [py "notes.txt"] = Some (File png_payload).
Proof.
  assert (Hrun : snd (@main latin_isalnum canned_services (Some (py "token"))
                        two_selectors (world_of notes_tree)) = Ok tt) by evaluated.
  split; [exact Hrun |].
  rewrite (main_writes_below_download_only (unicode := latin_isalnum)
             (services := canned_services) (Some (py "token")) two_selectors
             (world_of notes_tree) [py "notes.txt"]).
  - evaluated.
  - rewrite Hrun. discriminate.
  - intros Hhead. vm_compute in Hhead. discriminate.
Defined.

Lemma main_keeps_earlier_files_witness :
  snd (@main latin_isalnum canned_services (Some (py "token")) two_selectors
         (world_of earlier_run_tree)) = Ok tt
  /\ node_at
       (fs (fst (@main latin_isalnum canned_services (Some (py "token"))
                   two_selectors (world_of earlier_run_tree))))
       (dest_path parrot_job) = Some (File png_payload).
Proof.
  assert (Hrun : snd (@main latin_isalnum canned_services (Some (py "token"))
                        two_selectors (world_of earlier_run_tree)) = Ok tt)
    by evaluated.
  split; [exact Hrun |].
  apply (main_keeps_earlier_files (unicode := latin_isalnum)
           (services := canned_services)).
  - rewrite Hrun. discriminate.
  - intros Hlast. vm_compute in Hlast. discriminate.
  - evaluated.
Defined.
